(** * Vibe Crawler: crawl orchestration, detector protocol and report summary

    A shallow embedding of [crawler.py], [detectors/base.py],
    [detectors/console_errors.py] and [reporter.py].

    The browser page (Playwright's [Page]) is an external collaborator: it is
    modelled as a record of the answers it gives for each URL.  The crawler
    object is a record that is threaded through the methods, one field per
    Python attribute. *)

From Stdlib Require Import Ascii.
From stdpp Require Import base tactics option list strings gmap fin_maps pretty.

Local Open Scope Z_scope.

(** ** Python string helpers used by the crawler *)

Module PyStr.

(** [s.split("#")[0]]: the part of [s] before the first ["#"]. *)
Fixpoint split_hash_0 (s : string) : string :=
  match s with
  | EmptyString => EmptyString
  | String c rest =>
      if Ascii.eqb c "#"%char then EmptyString else String c (split_hash_0 rest)
  end.

(** [s.rstrip("/")]: [s] without its trailing run of ["/"]. *)
Fixpoint rstrip_slash (s : string) : string :=
  match s with
  | EmptyString => EmptyString
  | String c rest =>
      match rstrip_slash rest with
      | EmptyString => if Ascii.eqb c "/"%char then EmptyString else String c EmptyString
      | kept => String c kept
      end
  end.

(** A Python [str] is held as its UTF-8 bytes: a character is one byte that
    is not a continuation byte ([10xxxxxx]), followed by its continuation
    bytes. *)
Definition is_continuation (a : Ascii.ascii) : bool :=
  match a with
  | Ascii.Ascii _ _ _ _ _ _ false true => true
  | _ => false
  end.

(** [len(s)]: the number of characters. *)
Fixpoint len (s : string) : nat :=
  match s with
  | EmptyString => O
  | String a rest => if is_continuation a then len rest else S (len rest)
  end.

(** [s[:n]]: the first [n] characters. *)
Fixpoint prefix (n : nat) (s : string) : string :=
  match s with
  | EmptyString => EmptyString
  | String a rest =>
      if is_continuation a then String a (prefix n rest)
      else
        match n with
        | O => EmptyString
        | S n' => String a (prefix n' rest)
        end
  end.

(** Truthiness of a string: non-empty. *)
Definition truthy (s : string) : bool :=
  match s with EmptyString => false | _ => true end.

(** [ch in s] *)
Fixpoint contains (ch : Ascii.ascii) (s : string) : bool :=
  match s with
  | EmptyString => false
  | String c rest => Ascii.eqb c ch || contains ch rest
  end.

(** [s.endswith("/")] *)
Fixpoint ends_with_slash (s : string) : bool :=
  match s with
  | EmptyString => false
  | String c EmptyString => Ascii.eqb c "/"%char
  | String _ rest => ends_with_slash rest
  end.

(** A reading of [urllib.parse.urlparse(u).netloc] for the absolute URLs a
    browser reports in [a.href]: what stands between the ["//"] that follows
    the scheme and the next ["/"], ["?"] or ["#"]. *)
Fixpoint until_delim (s : string) : string :=
  match s with
  | EmptyString => EmptyString
  | String c rest =>
      if Ascii.eqb c "/"%char || Ascii.eqb c "?"%char || Ascii.eqb c "#"%char
      then EmptyString else String c (until_delim rest)
  end.

Fixpoint after_scheme (s : string) : string :=
  match s with
  | EmptyString => EmptyString
  | String c rest => if Ascii.eqb c ":"%char then rest else after_scheme rest
  end.

Definition urlparse_netloc (u : string) : string :=
  match after_scheme u with
  | String "/"%char (String "/"%char rest) => until_delim rest
  | _ => EmptyString
  end.

End PyStr.

(** ** Data model ([crawler.py], [detectors/base.py]) *)

Inductive Severity := CRITICAL | HIGH | MEDIUM | LOW | INFO.

(** [Severity.X.value] *)
Definition severity_value (s : Severity) : string :=
  match s with
  | CRITICAL => "critical"
  | HIGH => "high"
  | MEDIUM => "medium"
  | LOW => "low"
  | INFO => "info"
  end.

Record Bug := mkBug {
  bug_url : string;
  bug_category : string;
  bug_severity : Severity;
  bug_title : string;
  bug_description : string;
  bug_selector : option string;
  bug_screenshot_path : option string;
  bug_extra : list (string * string);
}.

Record CrawlResult := mkCrawlResult {
  result_start_url : string;
  pages_visited : nat;
  bugs : list Bug;
  errors : list string;
  started_at : string;
  finished_at : string;
}.

(** ** The browser page *)

(** The response object of [page.goto]; only [status] is read. *)
Record Response := mkResponse { status : Z }.

(** [await page.goto(...)] followed by [await page.wait_for_timeout(1500)]:
    either one of them raises, or [goto] has returned a response or [None]. *)
Inductive GotoResult :=
| GotoRaises (cause : string)
| GotoReturns (resp : option Response).

(** The two page events a detector can subscribe to in [attach]. *)
Inductive PageEvent :=
| ConsoleMsg (type text : string)
| PageError (text : string).

(** What the site answers for each URL. [page_events url] are the events the
    page fires while the navigation to [url] is awaited (whether or not that
    navigation succeeds); [hrefs url] is the result of
    [eval_on_selector_all("a[href]", ...)] on the page loaded from [url],
    [None] when the call raises. *)
Record Page := mkPage {
  goto : string → GotoResult;
  page_events : string → list PageEvent;
  hrefs : string → option (list string);
}.

(** ** Detector protocol ([detectors/base.py]) *)

Inductive DetectResult :=
| DetectRaises (e : string)
| DetectReturns (found : list Bug).

(** A detector instance: its class attribute [name], its private mutable
    state, the listener [attach] registers on the page (the identity for a
    detector that keeps the base class's no-op [attach]) and [detect], which
    may change the state whether it returns or raises. *)
Record BugDetector (DS : Type) := mkDetector {
  name : string;
  det_state : DS;
  on_event : DS → PageEvent → DS;
  detect : DS → Page → string → DetectResult * DS;
}.
Arguments mkDetector {DS}.
Arguments name {DS}.
Arguments det_state {DS}.
Arguments on_event {DS}.
Arguments detect {DS}.

Definition with_state {DS} (d : BugDetector DS) (s : DS) : BugDetector DS :=
  mkDetector (name d) s (on_event d) (detect d).

(** ** What the Python runtime decides *)

(** [netloc u] is [urllib.parse.urlparse(u).netloc], [None] when [urlparse]
    raises [ValueError] (as it does on ["http://[bad/x"]); [set_iter l] is
    [list(set(l))], whose order is the set's iteration order (for strings it
    follows their hashes, which CPython salts per process); [utcnow_start] and
    [utcnow_finish] are the two readings of the clock. *)
Record Runtime := mkRuntime {
  netloc : string → option string;
  set_iter : list string → list string;
  utcnow_start : string;
  utcnow_finish : string;
}.

(** What [list(set(l))] guarantees whatever the order: the distinct elements
    of [l], each once. *)
Definition set_iter_ok (iter : list string → list string) : Prop :=
  ∀ l, NoDup (iter l) ∧ ∀ x, x ∈ iter l ↔ x ∈ l.

(** ** The crawler ([crawler.py]) *)

(** The calls a run makes, in order: the line [_crawl_page] prints for each
    page, and each [det.detect(page, url)]. *)
Inductive Event :=
| Visiting (url : string)
| DetectCalled (det_name url : string).

(** The attributes of a [VibeCrawler], together with the detector instances
    that [run] creates once and passes to every [_crawl_page], and the log of
    calls. *)
Record VibeCrawler (DS : Type) := mkCrawler {
  start_url : string;
  max_pages : Z;
  detector_classes : list (BugDetector DS);
  _visited : gset string;
  _queue : list string;
  result : CrawlResult;
  detectors : list (BugDetector DS);
  log : list Event;
}.
Arguments mkCrawler {DS}.
Arguments start_url {DS}.
Arguments max_pages {DS}.
Arguments detector_classes {DS}.
Arguments _visited {DS}.
Arguments _queue {DS}.
Arguments result {DS}.
Arguments detectors {DS}.
Arguments log {DS}.

Section Crawler.
Context {DS : Type}.
Local Abbreviation Crawler := (VibeCrawler DS).
Local Abbreviation Detector := (BugDetector DS).

(** *** Field updates *)

Definition set_visited (v : gset string) (c : Crawler) : Crawler :=
  mkCrawler (start_url c) (max_pages c) (detector_classes c) v (_queue c)
            (result c) (detectors c) (log c).
Definition set_queue (q : list string) (c : Crawler) : Crawler :=
  mkCrawler (start_url c) (max_pages c) (detector_classes c) (_visited c) q
            (result c) (detectors c) (log c).
Definition set_result (r : CrawlResult) (c : Crawler) : Crawler :=
  mkCrawler (start_url c) (max_pages c) (detector_classes c) (_visited c)
            (_queue c) r (detectors c) (log c).
Definition set_detectors (ds : list Detector) (c : Crawler) : Crawler :=
  mkCrawler (start_url c) (max_pages c) (detector_classes c) (_visited c)
            (_queue c) (result c) ds (log c).
Definition set_log (l : list Event) (c : Crawler) : Crawler :=
  mkCrawler (start_url c) (max_pages c) (detector_classes c) (_visited c)
            (_queue c) (result c) (detectors c) l.

(** [self.result.bugs.append(b)], [self.result.bugs.extend(bs)] *)
Definition extend_bugs (bs : list Bug) (r : CrawlResult) : CrawlResult :=
  mkCrawlResult (result_start_url r) (pages_visited r) (bugs r ++ bs)
                (errors r) (started_at r) (finished_at r).
(** [self.result.errors.append(e)] *)
Definition append_error (e : string) (r : CrawlResult) : CrawlResult :=
  mkCrawlResult (result_start_url r) (pages_visited r) (bugs r)
                (errors r ++ [e]) (started_at r) (finished_at r).

(** *** [__init__] *)

(** [default_detectors] stands for [DEFAULT_DETECTORS]; the argument
    [dets] is [None] when the caller passes no list. *)
Definition init (default_detectors : list Detector)
    (url : string) (max : Z) (dets : option (list Detector)) : Crawler :=
  mkCrawler url max
    (match dets with
     | Some (d :: ds) => d :: ds
     | _ => default_detectors
     end)
    ∅ []
    (mkCrawlResult url 0%nat [] [] "" "")
    [] [].

(** *** [_same_origin] *)
(** [None] when one of the two [urlparse] calls raises. *)
Definition _same_origin (rt : Runtime) (c : Crawler) (url : string)
    : option bool :=
  match netloc rt url, netloc rt (start_url c) with
  | Some a, Some b => Some (bool_decide (a = b))
  | _, _ => None
  end.

(** *** [_discover_links] *)

(** [href.split("#")[0].rstrip("/")] *)
Definition clean_href (href : string) : string :=
  PyStr.rstrip_slash (PyStr.split_hash_0 href).

(** The [for href in hrefs] loop, [links] being the list built so far;
    [None] when [_same_origin] raises.  The [and] chain stops at the first
    false operand, so an empty [clean] is never parsed. *)
Fixpoint collect_links (rt : Runtime) (c : Crawler)
    (hs : list string) (links : list string) : option (list string) :=
  match hs with
  | [] => Some links
  | href :: hs' =>
      let clean := clean_href href in
      if PyStr.truthy clean then
        match _same_origin rt c clean with
        | None => None
        | Some true =>
            if bool_decide (clean ∉ _visited c)
            then collect_links rt c hs' (links ++ [clean])
            else collect_links rt c hs' links
        | Some false => collect_links rt c hs' links
        end
      else collect_links rt c hs' links
  end.

(** [None] when the page query or the loop raises. *)
Definition _discover_links (rt : Runtime) (page : Page) (url : string)
    (c : Crawler) : option (list string) :=
  match hrefs page url with
  | None => None
  | Some hs => set_iter rt <$> collect_links rt c hs []
  end.

(** *** The frontier operations *)

(** The loop of [_crawl_page] that appends the new links to the queue. *)
Fixpoint offer (links : list string) (visited : gset string)
    (queue : list string) : list string :=
  match links with
  | [] => queue
  | link :: rest =>
      if bool_decide (link ∉ visited) && bool_decide (link ∉ queue)
      then offer rest visited (queue ++ [link])
      else offer rest visited queue
  end.

(** [self._queue.append(self.start_url.rstrip("/"))] *)
Definition enqueue_seed (c : Crawler) : Crawler :=
  set_queue (_queue c ++ [PyStr.rstrip_slash (start_url c)]) c.

(** The head of one iteration of the [while] loop of [run]. *)
Inductive Dequeued :=
| Stop                       (* the loop condition is false *)
| Skip                       (* [continue]: the URL was visited already *)
| Process (url : string).    (* marked visited, handed to [_crawl_page] *)

Definition loop_cond (c : Crawler) : bool :=
  match _queue c with
  | [] => false
  | _ :: _ => bool_decide (Z.of_nat (size (_visited c)) < max_pages c)
  end.

Definition dequeue (c : Crawler) : Dequeued * Crawler :=
  if loop_cond c then
    match _queue c with
    | [] => (Stop, c)
    | url :: rest =>
        let c := set_queue rest c in
        if bool_decide (url ∈ _visited c) then (Skip, c)
        else (Process url, set_visited ({[url]} ∪ _visited c) c)
    end
  else (Stop, c).

(** *** [_crawl_page] *)

(** The page's events reach every attached listener. *)
Definition deliver (evs : list PageEvent) (d : Detector) : Detector :=
  with_state d (foldl (on_event d) (det_state d) evs).

(** [resp and resp.status >= 400] *)
Definition status_is_error (resp : option Response) : bool :=
  match resp with
  | None => false
  | Some r => bool_decide (400 ≤ status r)
  end.

Definition http_bug (url : string) (st : Z) : Bug :=
  mkBug url "http" HIGH ("HTTP " +:+ pretty st)
        ("Page returned status " +:+ pretty st) None None [].

Definition detector_error (d : Detector) (url e : string) : string :=
  "Detector " +:+ name d +:+ " failed on " +:+ url +:+ ": " +:+ e.

(** The [for det in detectors] loop. *)
Fixpoint run_detectors (page : Page) (url : string) (ds : list Detector)
    (r : CrawlResult) (l : list Event)
    : list Detector * CrawlResult * list Event :=
  match ds with
  | [] => ([], r, l)
  | det :: rest =>
      let l := l ++ [DetectCalled (name det) url] in
      let '(out, s) := detect det (det_state det) page url in
      let r :=
        match out with
        | DetectReturns found => extend_bugs found r
        | DetectRaises e => append_error (detector_error det url e) r
        end in
      let '(rest', r', l') := run_detectors page url rest r l in
      (with_state det s :: rest', r', l')
  end.

Definition _crawl_page (rt : Runtime) (page : Page) (url : string)
    (c : Crawler) : Crawler :=
  let c := set_log (log c ++ [Visiting url]) c in
  let c := set_detectors (deliver (page_events page url) <$> detectors c) c in
  match goto page url with
  | GotoRaises e =>
      set_result
        (append_error ("Failed to load " +:+ url +:+ ": " +:+ e) (result c)) c
  | GotoReturns resp =>
      let c :=
        match resp with
        | Some r =>
            if status_is_error resp
            then set_result (extend_bugs [http_bug url (status r)] (result c)) c
            else c
        | None => c
        end in
      let '(ds, r, l) :=
        run_detectors page url (detectors c) (result c) (log c) in
      let c := set_log l (set_result r (set_detectors ds c)) in
      match _discover_links rt page url c with
      | Some new_links =>
          set_queue (offer new_links (_visited c) (_queue c)) c
      | None => c
      end
  end.

(** *** [run] *)

(** The [while] loop; [fuel] bounds the number of iterations and [None]
    means it was too small. *)
Fixpoint run_loop (rt : Runtime) (page : Page) (fuel : nat) (c : Crawler)
    : option Crawler :=
  match fuel with
  | O => None
  | S fuel' =>
      match dequeue c with
      | (Stop, c') => Some c'
      | (Skip, c') => run_loop rt page fuel' c'
      | (Process url, c') => run_loop rt page fuel' (_crawl_page rt page url c')
      end
  end.

Definition set_started_at (t : string) (r : CrawlResult) : CrawlResult :=
  mkCrawlResult (result_start_url r) (pages_visited r) (bugs r) (errors r)
                t (finished_at r).

Definition finalize (rt : Runtime) (c : Crawler) : Crawler :=
  let r := result c in
  set_result
    (mkCrawlResult (result_start_url r) (size (_visited c)) (bugs r)
                   (errors r) (started_at r) (utcnow_finish rt)) c.

Definition run (rt : Runtime) (page : Page) (fuel : nat) (c : Crawler)
    : option Crawler :=
  let c := set_result (set_started_at (utcnow_start rt) (result c)) c in
  let c := set_detectors (detector_classes c) c in
  let c := enqueue_seed c in
  finalize rt <$> run_loop rt page fuel c.

End Crawler.

(** ** [ConsoleErrorDetector] ([detectors/console_errors.py]) *)

(** One buffered entry, the dict [{"type": ..., "text": ...}]. *)
Record ErrEntry := mkErr { err_type : string; err_text : string }.

Module ConsoleErrorDetector.

(** The private state is the list [self._errors]. *)
Definition _on_console (errs : list ErrEntry) (type text : string)
    : list ErrEntry :=
  if bool_decide (type = "error") then errs ++ [mkErr "console.error" text]
  else errs.

Definition _on_pageerror (errs : list ErrEntry) (text : string)
    : list ErrEntry :=
  errs ++ [mkErr "unhandled_exception" text].

(** The two listeners [attach] registers. *)
Definition listener (errs : list ErrEntry) (ev : PageEvent) : list ErrEntry :=
  match ev with
  | ConsoleMsg type text => _on_console errs type text
  | PageError text => _on_pageerror errs text
  end.

Definition bug_of (url : string) (err : ErrEntry) : Bug :=
  mkBug url "javascript"
        (if bool_decide (err_type err = "unhandled_exception")
         then HIGH else MEDIUM)
        ("JS " +:+ err_type err)
        (PyStr.prefix 500 (err_text err))
        None None [].

(** [detect]: one bug per buffered entry, then [self._errors.clear()]. *)
Definition detect (errs : list ErrEntry) (page : Page) (url : string)
    : DetectResult * list ErrEntry :=
  (DetectReturns (bug_of url <$> errs), []).

(** A fresh instance, [ConsoleErrorDetector()]. *)
Definition new : BugDetector (list ErrEntry) :=
  mkDetector "console_errors" [] listener detect.

End ConsoleErrorDetector.

(** ** [generate_json_report] ([reporter.py]) *)

Record Summary := mkSummary {
  total_bugs : nat;
  by_severity : gmap string nat;
  by_category : gmap string nat;
}.

(** The dict [data] that is returned and dumped to the file. *)
Record Report := mkReport {
  report_tool : string;
  report_start_url : string;
  report_pages_visited : nat;
  report_started_at : string;
  report_finished_at : string;
  summary : Summary;
  report_bugs : list Bug;
  report_errors : list string;
}.

(** [d[k] = d.get(k, 0) + 1] *)
Definition bump (k : string) (d : gmap string nat) : gmap string nat :=
  <[k := (default 0 (d !! k) + 1)%nat]> d.

(** The body of the [for bug in result.bugs] loop. *)
Definition report_add (data : Report) (bug : Bug) : Report :=
  let s := summary data in
  mkReport (report_tool data) (report_start_url data)
    (report_pages_visited data) (report_started_at data)
    (report_finished_at data)
    (mkSummary (total_bugs s)
       (bump (severity_value (bug_severity bug)) (by_severity s))
       (bump (bug_category bug) (by_category s)))
    (report_bugs data ++ [bug])
    (report_errors data).

Definition generate_json_report (r : CrawlResult) : Report :=
  let data :=
    mkReport "Vibe Crawler" (result_start_url r) (pages_visited r)
      (started_at r) (finished_at r)
      (mkSummary (length (bugs r)) ∅ ∅) [] (errors r) in
  foldl report_add data (bugs r).

(** [sum(d.values())] *)
Definition sum_values (d : gmap string nat) : nat :=
  map_fold (λ _ v acc, (v + acc)%nat) 0%nat d.

(** * Vocabulary of the properties *)

(** A URL in normal form has no fragment and no trailing slash. *)
Definition normalized (u : string) : Prop :=
  PyStr.contains "#" u = false ∧ PyStr.ends_with_slash u = false.

(** The URLs of the pages visited, in order, as the log has them. *)
Fixpoint visited_urls (l : list Event) : list string :=
  match l with
  | [] => []
  | Visiting url :: l' => url :: visited_urls l'
  | DetectCalled _ _ :: l' => visited_urls l'
  end.

(** After the seed is enqueued, the frontier changes through two operations
    only: the offer of candidate links and the dequeue at the head of a loop
    turn.  [processed] lists the URLs handed to [_crawl_page] so far. *)
Inductive SchedOp :=
| OpOffer (candidates : list string)
| OpDequeue.

Section Vocabulary.
Context {DS : Type}.
Implicit Types (c : VibeCrawler DS) (d : BugDetector DS)
  (v : gset string) (q : list string).

(** The queue has no repetition and shares nothing with the visited set. *)
Definition frontier_ok v q : Prop :=
  NoDup q ∧ ∀ u, u ∈ q → u ∉ v.

(** What one [detect] call contributes. *)
Definition returned (page : Page) (url : string) d : list Bug :=
  match (detect d (det_state d) page url).1 with
  | DetectReturns found => found
  | DetectRaises _ => []
  end.

Definition raised (page : Page) (url : string) d : list string :=
  match (detect d (det_state d) page url).1 with
  | DetectReturns _ => []
  | DetectRaises e => [detector_error d url e]
  end.

Definition after_detect (page : Page) (url : string) d : BugDetector DS :=
  with_state d (detect d (det_state d) page url).2.

Definition detect_call (url : string) d : Event := DetectCalled (name d) url.

(** The synthetic finding of the status check. *)
Definition status_bugs (url : string) (resp : option Response) : list Bug :=
  match resp with
  | Some r => if status_is_error resp then [http_bug url (status r)] else []
  | None => []
  end.

(** The detector instances as they stand when the [for det in detectors]
    loop starts on [url]. *)
Definition listening (page : Page) (url : string) c : list (BugDetector DS) :=
  deliver (page_events page url) <$> detectors c.

(** The crawler as it stands after the detectors have run on a loaded page,
    before link discovery. *)
Definition inspected (page : Page) (url : string) (resp : option Response) c
    : VibeCrawler DS :=
  let r := result c in
  let ds := listening page url c in
  mkCrawler (start_url c) (max_pages c) (detector_classes c) (_visited c)
    (_queue c)
    (mkCrawlResult (result_start_url r) (pages_visited r)
       (bugs r ++ status_bugs url resp ++ concat (returned page url <$> ds))
       (errors r ++ concat (raised page url <$> ds))
       (started_at r) (finished_at r))
    (after_detect page url <$> ds)
    (log c ++ [Visiting url] ++ (detect_call url <$> ds)).

(** The crawler as [run] has it when the loop starts. *)
Definition started (rt : Runtime) c : VibeCrawler DS :=
  enqueue_seed
    (set_detectors (detector_classes c)
       (set_result (set_started_at (utcnow_start rt) (result c)) c)).

(** What holds of the crawler at every turn of the [while] loop. *)
Record run_inv c : Prop := mkRunInv {
  inv_frontier : frontier_ok (_visited c) (_queue c);
  inv_once : NoDup (visited_urls (log c));
  inv_visited : ∀ u, u ∈ _visited c ↔ u ∈ visited_urls (log c);
  inv_budget : Z.of_nat (size (_visited c)) ≤ Z.max 0 (max_pages c);
}.

Definition apply_op (st : VibeCrawler DS * list string) (op : SchedOp)
    : VibeCrawler DS * list string :=
  let '(c, processed) := st in
  match op with
  | OpOffer candidates =>
      (set_queue (offer candidates (_visited c) (_queue c)) c, processed)
  | OpDequeue =>
      match dequeue c with
      | (Process url, c') => (c', processed ++ [url])
      | (_, c') => (c', processed)
      end
  end.

Definition apply_ops (ops : list SchedOp)
    (st : VibeCrawler DS * list string) : VibeCrawler DS * list string :=
  foldl apply_op st ops.

(** What holds of the frontier and of the list of processed URLs after every
    scheduler operation. *)
Definition sched_inv (st : VibeCrawler DS * list string) : Prop :=
  frontier_ok (_visited st.1) (_queue st.1)
  ∧ (∀ u, u ∈ _visited st.1 ↔ u ∈ st.2)
  ∧ NoDup st.2.

(** The same crawler, started at another time. *)
Definition retime (t : string) c : VibeCrawler DS :=
  set_result (set_started_at t (result c)) c.

(** Two runs agree on what they found. *)
Definition same_findings c1 c2 : Prop :=
  log c1 = log c2
  ∧ bugs (result c1) = bugs (result c2)
  ∧ errors (result c1) = errors (result c2)
  ∧ pages_visited (result c1) = pages_visited (result c2)
  ∧ _visited c1 = _visited c2 ∧ _queue c1 = _queue c2.

(** A second run of the same process image: another clock, the same
    iteration order for sets. *)
Definition later (rt : Runtime) (t_start t_finish : string) : Runtime :=
  mkRuntime (netloc rt) (set_iter rt) t_start t_finish.

End Vocabulary.

(** ** A sample site and sample detectors *)

Module Sample.

(** Two iteration orders a set of strings can have. *)
Definition rt_first : Runtime :=
  mkRuntime (λ u, Some (PyStr.urlparse_netloc u)) remove_dups
            "2024-05-01T10:00:00" "2024-05-01T10:00:09".
Definition rt_last : Runtime :=
  mkRuntime (λ u, Some (PyStr.urlparse_netloc u))
            (λ l, reverse (remove_dups l))
            "2024-05-02T08:30:00" "2024-05-02T08:30:07".

(** The home page links to [/a] (twice, once with a fragment), to [/b/] and
    to another host; [/a] times out after logging a console error; [/b]
    answers 404 and links to [/c]; [/c] loads without a response object and
    refuses the link query. *)
Definition shop : Page :=
  mkPage
    (λ u, if bool_decide (u = "https://shop.test/a")
          then GotoRaises "Timeout 20000ms exceeded."
          else if bool_decide (u = "https://shop.test/b")
          then GotoReturns (Some (mkResponse 404))
          else if bool_decide (u = "https://shop.test/c")
          then GotoReturns None
          else GotoReturns (Some (mkResponse 200)))
    (λ u, if bool_decide (u = "https://shop.test/a")
          then [ConsoleMsg "error" "boom on /a"]
          else [])
    (λ u, if bool_decide (u = "https://shop.test")
          then Some ["https://shop.test/a"; "https://shop.test/b/";
                     "https://shop.test/a#reviews"; "https://cdn.test/x"]
          else if bool_decide (u = "https://shop.test/b")
          then Some ["https://shop.test/c"]
          else if bool_decide (u = "https://shop.test/c")
          then None
          else Some []).

(** A detector that raises on every call, and one that reports one finding
    per page. *)
Definition flaky : BugDetector (list ErrEntry) :=
  mkDetector "flaky" [] (λ s _, s)
             (λ s _ _, (DetectRaises "probe failed", s)).

Definition no_title (url : string) : Bug :=
  mkBug url "seo" MEDIUM "Missing page <title>"
        "The page has no <title> tag." (Some "head") None [].

Definition title_check : BugDetector (list ErrEntry) :=
  mkDetector "meta_seo" [] (λ s _, s)
             (λ s _ url, (DetectReturns [no_title url], s)).

Definition crawler (max : Z) : VibeCrawler (list ErrEntry) :=
  init [ConsoleErrorDetector.new] "https://shop.test/" max
       (Some [ConsoleErrorDetector.new; flaky; title_check]).

(** A one-page site whose seed carries a fragment. *)
Definition blog : Page :=
  mkPage (λ _, GotoReturns (Some (mkResponse 200)))
         (λ _, [])
         (λ u, if bool_decide (u = "https://blog.test/#top")
               then Some ["https://blog.test/"] else Some []).

Definition blog_crawler : VibeCrawler (list ErrEntry) :=
  init [ConsoleErrorDetector.new] "https://blog.test/#top" 20 None.

End Sample.

(** The crawler after the home page, about to visit [/a] and then [/b]. *)
Definition shop_after_home : VibeCrawler (list ErrEntry) :=
  _crawl_page Sample.rt_last Sample.shop "https://shop.test"
    (dequeue (started Sample.rt_last (Sample.crawler 20))).2.

(** The findings of the console-error detector in a result. *)
Definition javascript_bugs (c : VibeCrawler (list ErrEntry)) : list Bug :=
  filter (λ b, bug_category b = "javascript") (bugs (result c)).

(** * The built-in detectors and the terminal report *)

(** ** More Python string helpers *)

Module Text.

(** The one-character strings that a Rocq literal cannot hold as they are. *)
Definition dquote : string := String (Ascii.ascii_of_nat 34) EmptyString.
Definition newline : string := String (Ascii.ascii_of_nat 10) EmptyString.

(** [s.startswith(p)] *)
Definition startswith (s p : string) : bool := String.prefix p s.

(** [s.replace(c, by)] for a one-character [c]. *)
Fixpoint replace_char (c : Ascii.ascii) (by_ : string) (s : string) : string :=
  match s with
  | EmptyString => EmptyString
  | String a rest =>
      if Ascii.eqb a c then by_ +:+ replace_char c by_ rest
      else String a (replace_char c by_ rest)
  end.

(** [s.upper()], for ASCII text. *)
Definition upper_char (a : Ascii.ascii) : Ascii.ascii :=
  let n := Ascii.nat_of_ascii a in
  if (97 <=? n)%nat && (n <=? 122)%nat then Ascii.ascii_of_nat (n - 32) else a.

Fixpoint upper (s : string) : string :=
  match s with
  | EmptyString => EmptyString
  | String a rest => String (upper_char a) (upper rest)
  end.

(** [s * n] *)
Fixpoint times (s : string) (n : nat) : string :=
  match n with
  | O => EmptyString
  | S n' => s +:+ times s n'
  end.

End Text.

(** For each built-in detector, [evaluate] stands for what the awaited page
    call at the top of [detect] gives: [inl e] when it raises, [inr v] when it
    returns [v], whose shape is that of the JavaScript object literal in the
    source. *)

(** ** [MetaAndSEODetector] ([detectors/meta_seo.py]) *)

Module MetaAndSEODetector.

Record Info := mkInfo {
  title : string;
  metaDescription : string;
  viewport : string;
  h1Count : Z;
  favicon : bool;
}.

Definition seo_bug (url : string) (sev : Severity) (ttl desc : string) : Bug :=
  mkBug url "seo" sev ttl desc None None [].

(** The body of [detect] after the page call. *)
Definition findings (info : Info) (url : string) : list Bug :=
  let found := [] in
  let found :=
    if negb (PyStr.truthy (title info))
    then found ++ [seo_bug url MEDIUM "Missing page <title>"
                           "The page has no <title> tag."]
    else found in
  let found :=
    if negb (PyStr.truthy (viewport info))
    then found ++ [seo_bug url MEDIUM "Missing viewport meta tag"
      "No <meta name='viewport'> found — this page is likely broken on mobile devices."]
    else found in
  let found :=
    if negb (PyStr.truthy (metaDescription info))
    then found ++ [seo_bug url LOW "Missing meta description"
                           "No <meta name='description'> tag found."]
    else found in
  let found :=
    if negb (favicon info)
    then found ++ [seo_bug url LOW "Missing favicon"
                           "No <link rel='icon'> found."]
    else found in
  if bool_decide (h1Count info = 0)
  then found ++ [seo_bug url LOW "No <h1> heading found"
                         "Page has no <h1> element."]
  else if bool_decide (1 < h1Count info)
  then found ++ [seo_bug url LOW
                   ("Multiple <h1> tags (" +:+ pretty (h1Count info) +:+ ")")
                   "Best practice is a single <h1> per page."]
  else found.

Definition detect (evaluate : string + Info) (url : string) : DetectResult :=
  match evaluate with
  | inl e => DetectRaises e
  | inr info => DetectReturns (findings info url)
  end.

End MetaAndSEODetector.

(** ** [BrokenLinkDetector] ([detectors/broken_links.py]) *)

Module BrokenLinkDetector.

Record Link := mkLink { href : string; text : string }.

Definition MAX_LINKS_PER_PAGE : nat := 50.

(** [not href or href.startswith(("javascript:", "mailto:", "tel:", "data:"))] *)
Definition skipped (h : string) : bool :=
  negb (PyStr.truthy h)
  || Text.startswith h "javascript:" || Text.startswith h "mailto:"
  || Text.startswith h "tel:" || Text.startswith h "data:".

(** The two entries of [extra] are kept as text. *)
Definition broken_bug (url : string) (link : Link) (st : Z) : Bug :=
  mkBug url "broken_link"
        (if bool_decide (500 ≤ st) then HIGH else MEDIUM)
        ("Broken link (" +:+ pretty st +:+ ")")
        ("Link " +:+ Text.dquote +:+ text link +:+ Text.dquote +:+ " → "
           +:+ href link +:+ " returned " +:+ pretty st)
        None None
        [("status", pretty st); ("target", href link)].

(** The [for link in links[:50]] loop; [head h] is the status that
    [page.request.head(h, timeout=8000)] answers, [None] when it raises. *)
Fixpoint probe (head : string → option Z) (url : string) (links : list Link)
    (found : list Bug) : list Bug :=
  match links with
  | [] => found
  | link :: rest =>
      if skipped (href link) then probe head url rest found
      else
        match head (href link) with
        | Some st =>
            if bool_decide (400 ≤ st)
            then probe head url rest (found ++ [broken_bug url link st])
            else probe head url rest found
        | None => probe head url rest found
        end
  end.

Definition findings (head : string → option Z) (links : list Link)
    (url : string) : list Bug :=
  probe head url (take MAX_LINKS_PER_PAGE links) [].

Definition detect (head : string → option Z) (evaluate : string + list Link)
    (url : string) : DetectResult :=
  match evaluate with
  | inl e => DetectRaises e
  | inr links => DetectReturns (findings head links url)
  end.

End BrokenLinkDetector.

(** ** [OverflowDetector] ([detectors/overflow.py]) *)

Module OverflowDetector.

Record Item := mkItem { selector : string; scrollWidth : Z; clientWidth : Z }.

Definition overflow_bug (url : string) (item : Item) : Bug :=
  mkBug url "layout" MEDIUM "Horizontal overflow detected"
        ("Element `" +:+ selector item +:+ "` overflows: scrollWidth="
           +:+ pretty (scrollWidth item) +:+ "px vs clientWidth="
           +:+ pretty (clientWidth item) +:+ "px")
        (Some (selector item)) None [].

Definition findings (overflows : list Item) (url : string) : list Bug :=
  overflow_bug url <$> overflows.

Definition detect (evaluate : string + list Item) (url : string)
    : DetectResult :=
  match evaluate with
  | inl e => DetectRaises e
  | inr overflows => DetectReturns (findings overflows url)
  end.

End OverflowDetector.

(** ** [DeadClickDetector] ([detectors/dead_clicks.py]) *)

Module DeadClickDetector.

Record Suspect := mkSuspect { tag : string; text : string; html : string }.

Definition dead_click_bug (url : string) (s : Suspect) : Bug :=
  mkBug url "ux" LOW "Possibly non-interactive button-like element"
        ("`" +:+ tag s +:+ "` with text " +:+ Text.dquote +:+ text s
           +:+ Text.dquote
           +:+ " has a button-like class name but may not be clickable.")
        None None [("html", html s)].

Definition findings (suspects : list Suspect) (url : string) : list Bug :=
  dead_click_bug url <$> suspects.

Definition detect (evaluate : string + list Suspect) (url : string)
    : DetectResult :=
  match evaluate with
  | inl e => DetectRaises e
  | inr suspects => DetectReturns (findings suspects url)
  end.

End DeadClickDetector.

(** ** [AccessibilityDetector] ([detectors/accessibility.py]) *)

Module AccessibilityDetector.

Record Issue := mkIssue { type : string; detail : string }.

Definition title_map : gmap string string :=
  list_to_map
    [("img_no_alt", "Image missing alt text");
     ("empty_interactive", "Interactive element has no accessible name");
     ("no_lang", "Missing lang attribute on <html>");
     ("input_no_label", "Form input missing associated label")].

Definition severity_map : gmap string Severity :=
  list_to_map
    [("img_no_alt", MEDIUM); ("empty_interactive", MEDIUM);
     ("no_lang", LOW); ("input_no_label", MEDIUM)].

Definition issue_bug (url : string) (issue : Issue) : Bug :=
  mkBug url "accessibility"
        (default LOW (severity_map !! type issue))
        (default (type issue) (title_map !! type issue))
        (detail issue) None None [].

Definition findings (issues : list Issue) (url : string) : list Bug :=
  issue_bug url <$> issues.

Definition detect (evaluate : string + list Issue) (url : string)
    : DetectResult :=
  match evaluate with
  | inl e => DetectRaises e
  | inr issues => DetectReturns (findings issues url)
  end.

End AccessibilityDetector.

(** ** [print_report] and the row escaping of [generate_html_report]
    ([reporter.py]) *)

Module Reporter.

(** [by_severity.setdefault(bug.severity.value, []).append(bug)] *)
Definition group_add (d : gmap string (list Bug)) (bug : Bug)
    : gmap string (list Bug) :=
  let k := severity_value (bug_severity bug) in
  <[k := default [] (d !! k) ++ [bug]]> d.

Definition group_by_severity (found : list Bug) : gmap string (list Bug) :=
  foldl group_add ∅ found.

Definition SEVERITIES : list string :=
  ["critical"; "high"; "medium"; "low"; "info"].

Definition icon (sev : string) : string :=
  if bool_decide (sev = "critical") || bool_decide (sev = "high") then "🔴"
  else if bool_decide (sev = "medium") then "🟡" else "🔵".

(** The three lines printed for one bug. *)
Definition bug_lines (bug : Bug) : list string :=
  ["  [" +:+ bug_category bug +:+ "] " +:+ bug_title bug;
   "    URL: " +:+ bug_url bug;
   "    " +:+ PyStr.prefix 120 (bug_description bug)].

(** One turn of the [for sev in [...]] loop. *)
Definition section_lines (d : gmap string (list Bug)) (sev : string)
    : list string :=
  match default [] (d !! sev) with
  | [] => []
  | found =>
      (Text.newline +:+ icon sev +:+ " " +:+ Text.upper sev +:+ " ("
         +:+ pretty (length found) +:+ ")")
      :: concat (bug_lines <$> found)
  end.

(** What [print_report] prints, one entry per [print] call. *)
Definition print_report (r : CrawlResult) : list string :=
  [Text.newline +:+ Text.times "=" 60;
   "  VIBE CRAWLER REPORT — " +:+ result_start_url r;
   "  Pages visited: " +:+ pretty (pages_visited r);
   "  Bugs found:    " +:+ pretty (length (bugs r));
   Text.times "=" 60]
  ++ concat (section_lines (group_by_severity (bugs r)) <$> SEVERITIES)
  ++ match errors r with
     | [] => []
     | errs =>
         (Text.newline +:+ "⚠️  CRAWLER ERRORS (" +:+ pretty (length errs)
            +:+ ")")
         :: ((λ err, "  " +:+ PyStr.prefix 120 err) <$> errs)
     end
  ++ [""].

(** [bug.description.replace("<", "&lt;").replace(">", "&gt;")], the text of
    the description cell of a row of the HTML report. *)
Definition escape_description (desc : string) : string :=
  Text.replace_char ">" "&gt;" (Text.replace_char "<" "&lt;" desc).

End Reporter.

(** ** Vocabulary of the further properties *)

(** The URLs of a crawler in the order they entered the queue: those visited,
    then those waiting. *)
Definition discovery_order {DS} (c : VibeCrawler DS) : list string :=
  visited_urls (log c) ++ _queue c.

(** The crawler after at most [n] turns of the [while] loop of [run]. *)
Fixpoint loop_turns {DS} (rt : Runtime) (page : Page) (n : nat)
    (c : VibeCrawler DS) : VibeCrawler DS :=
  match n with
  | O => c
  | S n' =>
      match dequeue c with
      | (Stop, c') => c'
      | (Skip, c') => loop_turns rt page n' c'
      | (Process url, c') => loop_turns rt page n' (_crawl_page rt page url c')
      end
  end.

(** A detector that files every bug it returns under the URL it was given. *)
Definition attributes_to_url {DS} (d : BugDetector DS) : Prop :=
  ∀ s page url found s',
    detect d s page url = (DetectReturns found, s') →
    ∀ b, b ∈ found → bug_url b = url.

(** Every detector files its bugs under the URL it is given, and every bug
    recorded so far is filed under a URL of the log. *)
Definition filed {DS} (c : VibeCrawler DS) : Prop :=
  (∀ d, d ∈ detectors c → attributes_to_url d)
  ∧ (∀ b, b ∈ bugs (result c) → bug_url b ∈ visited_urls (log c)).

(** What the console-error detector makes of one page event. *)
Definition console_bug (url : string) (ev : PageEvent) : option Bug :=
  match ev with
  | ConsoleMsg type text =>
      if bool_decide (type = "error")
      then Some (mkBug url "javascript" MEDIUM "JS console.error"
                       (PyStr.prefix 500 text) None None [])
      else None
  | PageError text =>
      Some (mkBug url "javascript" HIGH "JS unhandled_exception"
                  (PyStr.prefix 500 text) None None [])
  end.

(** The bugs of a list that have a given severity value or category. *)
Definition with_severity (k : string) (found : list Bug) : list Bug :=
  filter (λ b, severity_value (bug_severity b) = k) found.
Definition with_category (k : string) (found : list Bug) : list Bug :=
  filter (λ b, bug_category b = k) found.

(** [d.get(k)] of a counting dict: the key is missing when nothing was
    counted. *)
Definition count_entry (n : nat) : option nat :=
  match n with O => None | S _ => Some n end.

(** A page that passes every check of the meta/SEO detector. *)
Definition seo_clean (info : MetaAndSEODetector.Info) : Prop :=
  MetaAndSEODetector.title info ≠ ""
  ∧ MetaAndSEODetector.viewport info ≠ ""
  ∧ MetaAndSEODetector.metaDescription info ≠ ""
  ∧ MetaAndSEODetector.favicon info = true
  ∧ (MetaAndSEODetector.h1Count info = 1 ∨ MetaAndSEODetector.h1Count info < 0).

(** The links of a page that the broken-link detector probes. *)
Definition probed (links : list BrokenLinkDetector.Link)
    : list BrokenLinkDetector.Link :=
  filter (λ l, BrokenLinkDetector.skipped (BrokenLinkDetector.href l) = false)
         (take BrokenLinkDetector.MAX_LINKS_PER_PAGE links).

(** ** Further sample inputs *)

Module Cases.

(** A site whose host does not resolve: every navigation raises. *)
Definition down : Page :=
  mkPage (λ _, GotoRaises "net::ERR_NAME_NOT_RESOLVED") (λ _, [])
         (λ _, Some []).

Definition down_crawler : VibeCrawler (list ErrEntry) :=
  init [ConsoleErrorDetector.new] "https://down.test/" 5 None.

(** Three links of a page and two servers that differ only in what they
    would answer for the [mailto:] link. *)
Definition nav : list BrokenLinkDetector.Link :=
  [BrokenLinkDetector.mkLink "https://shop.test/gone" "Old page";
   BrokenLinkDetector.mkLink "mailto:team@shop.test" "Mail us";
   BrokenLinkDetector.mkLink "https://shop.test/ok" "Home"].

Definition head_a (h : string) : option Z :=
  if bool_decide (h = "https://shop.test/gone") then Some 404
  else if bool_decide (h = "mailto:team@shop.test") then None
  else Some 200.

Definition head_b (h : string) : option Z :=
  if bool_decide (h = "https://shop.test/gone") then Some 404 else Some 200.

(** A runtime whose [urlparse] refuses an authority that holds one square
    bracket without the other, and a home page with one good link and one
    link of that kind. *)
Definition netloc_checked (u : string) : option string :=
  let n := PyStr.urlparse_netloc u in
  if xorb (PyStr.contains "[" n) (PyStr.contains "]" n) then None
  else Some n.

Definition rt_checked : Runtime :=
  mkRuntime netloc_checked remove_dups
            "2024-05-03T09:00:00" "2024-05-03T09:00:05".

Definition gallery : Page :=
  mkPage (λ _, GotoReturns (Some (mkResponse 200))) (λ _, [])
         (λ u, if bool_decide (u = "https://shop.test")
               then Some ["https://shop.test/a"; "http://[bad/x"]
               else Some []).

(** A page that lacks only its title. *)
Definition untitled : MetaAndSEODetector.Info :=
  MetaAndSEODetector.mkInfo "" "A shop." "width=device-width" 1 true.

(** A buffered console error of 600 characters, two bytes each. *)
Definition long_error : ErrEntry :=
  mkErr "console.error" (Text.times "é" 600).

End Cases.

(** * Properties *)

(** ** String normalisation *)

Lemma rstrip_slash_no_trailing (s : string) :
  PyStr.ends_with_slash (PyStr.rstrip_slash s) = false.
Proof.
  induction s as [|c rest IH]; simpl; [done|].
  destruct (PyStr.rstrip_slash rest) as [|c' kept] eqn:E.
  - destruct (Ascii.eqb c "/") eqn:Ec; simpl; [done|]. by rewrite Ec.
  - simpl in *. done.
Qed.

Lemma split_hash_0_no_hash (s : string) :
  PyStr.contains "#" (PyStr.split_hash_0 s) = false.
Proof.
  induction s as [|c rest IH]; simpl; [done|].
  destruct (Ascii.eqb c "#") eqn:Ec; simpl; [done|]. by rewrite Ec.
Qed.

Lemma rstrip_slash_keeps_no_hash (s : string) :
  PyStr.contains "#" s = false →
  PyStr.contains "#" (PyStr.rstrip_slash s) = false.
Proof.
  induction s as [|c rest IH]; simpl; [done|].
  intros [Hc Hrest]%orb_false_iff. specialize (IH Hrest).
  destruct (PyStr.rstrip_slash rest) as [|c' kept].
  - destruct (Ascii.eqb c "/"); simpl; [done|]. by rewrite Hc.
  - simpl in *. by rewrite Hc.
Qed.

Lemma clean_href_normalized (href : string) : normalized (clean_href href).
Proof.
  split.
  - apply rstrip_slash_keeps_no_hash, split_hash_0_no_hash.
  - apply rstrip_slash_no_trailing.
Qed.

(** ** The frontier *)

Section FrontierFacts.
Context {DS : Type}.
Implicit Types (c : VibeCrawler DS) (v : gset string) (q links : list string).

Lemma offer_spec links v q :
  ∃ added, offer links v q = q ++ added
           ∧ (∀ u, u ∈ added → u ∈ links ∧ (u ∉ v) ∧ (u ∉ q))
           ∧ NoDup added.
Proof.
  revert q. induction links as [|link rest IH]; intros q; simpl.
  - exists []. rewrite app_nil_r. split_and!; [done| |constructor].
    intros u Hu. by apply elem_of_nil in Hu.
  - destruct (bool_decide (link ∉ v)) eqn:Hv; simpl.
    + destruct (bool_decide (link ∉ q)) eqn:Hq; simpl.
      * apply bool_decide_eq_true in Hv, Hq.
        destruct (IH (q ++ [link])) as (added & -> & Hin & Hnd).
        exists (link :: added). rewrite <- app_assoc. simpl.
        split_and!; [done| |].
        -- intros u [->|Hu]%elem_of_cons.
           ++ split_and!; [left|done|done].
           ++ destruct (Hin u Hu) as (? & ? & Hnq). split_and!; [by right|done|].
              intros ?. apply Hnq, elem_of_app. by left.
        -- constructor; [|done]. intros Hl.
           destruct (Hin link Hl) as (_ & _ & Hnq). apply Hnq, elem_of_app.
           right. by apply list_elem_of_singleton.
      * destruct (IH q) as (added & -> & Hin & Hnd). exists added.
        split_and!; [done| |done].
        intros u Hu. destruct (Hin u Hu) as (? & ? & ?). split_and!; [by right|done|done].
    + destruct (IH q) as (added & -> & Hin & Hnd). exists added.
      split_and!; [done| |done].
      intros u Hu. destruct (Hin u Hu) as (? & ? & ?). split_and!; [by right|done|done].
Qed.

Lemma offer_frontier_ok links v q :
  frontier_ok v q → frontier_ok v (offer links v q).
Proof.
  intros [Hnd Hdis]. destruct (offer_spec links v q) as (added & -> & Hin & Hnda).
  split.
  - apply NoDup_app. split_and!; [done| |done].
    intros u Hq Ha. by destruct (Hin u Ha) as (_ & _ & ?).
  - intros u [Hq|Ha]%elem_of_app; [by apply Hdis|].
    by destruct (Hin u Ha) as (_ & ? & _).
Qed.

Lemma dequeue_stop c c' :
  dequeue c = (Stop, c') → c' = c ∧ loop_cond c = false.
Proof.
  unfold dequeue. destruct (loop_cond c) eqn:Hc.
  - destruct (_queue c) as [|url rest] eqn:Hq; [unfold loop_cond in Hc; by rewrite Hq in Hc|].
    simpl. by case_bool_decide.
  - by intros [= <-].
Qed.

Lemma dequeue_skip c c' :
  dequeue c = (Skip, c') →
  ∃ url, _queue c = url :: _queue c' ∧ url ∈ _visited c
         ∧ c' = set_queue (_queue c') c.
Proof.
  unfold dequeue. destruct (loop_cond c); [|done].
  destruct (_queue c) as [|url rest] eqn:Hq; [done|]. simpl.
  case_bool_decide; [|done]. intros [= <-]. simpl. eauto.
Qed.

Lemma dequeue_process c c' url :
  dequeue c = (Process url, c') →
  _queue c = url :: _queue c' ∧ (url ∉ _visited c)
  ∧ Z.of_nat (size (_visited c)) < max_pages c
  ∧ c' = set_visited ({[url]} ∪ _visited c) (set_queue (_queue c') c).
Proof.
  unfold dequeue. destruct (loop_cond c) eqn:Hc; [|done].
  unfold loop_cond in Hc.
  destruct (_queue c) as [|u rest] eqn:Hq; [done|]. simpl.
  apply bool_decide_eq_true in Hc.
  case_bool_decide; [done|]. intros [= <- <-]. simpl. done.
Qed.

Lemma size_add_fresh (url : string) v :
  url ∉ v → size ({[url]} ∪ v) = S (size v).
Proof.
  intros Hn. rewrite size_union by set_solver. by rewrite size_singleton.
Qed.

End FrontierFacts.

(** ** One page visit *)

Section PageVisit.
Context {DS : Type}.
Implicit Types (c : VibeCrawler DS) (d : BugDetector DS)
  (ds : list (BugDetector DS)) (r : CrawlResult) (l : list Event).

Lemma run_detectors_spec page url ds r l :
  run_detectors page url ds r l =
    (after_detect page url <$> ds,
     mkCrawlResult (result_start_url r) (pages_visited r)
       (bugs r ++ concat (returned page url <$> ds))
       (errors r ++ concat (raised page url <$> ds))
       (started_at r) (finished_at r),
     l ++ (detect_call url <$> ds)).
Proof.
  revert r l. induction ds as [|d ds IH]; intros r l; simpl.
  - rewrite !app_nil_r. by destruct r.
  - unfold returned, raised, after_detect at 1.
    destruct (detect d (det_state d) page url) as [out s] eqn:Hd. simpl.
    rewrite IH. destruct out; simpl;
      rewrite <- !app_assoc; simpl; rewrite ?app_nil_r; done.
Qed.

Lemma crawl_page_failed rt page url c cause :
  goto page url = GotoRaises cause →
  _crawl_page rt page url c =
    mkCrawler (start_url c) (max_pages c) (detector_classes c) (_visited c)
      (_queue c)
      (append_error ("Failed to load " +:+ url +:+ ": " +:+ cause) (result c))
      (listening page url c)
      (log c ++ [Visiting url]).
Proof. intros H. unfold _crawl_page. rewrite H. done. Qed.

Lemma crawl_page_loaded rt page url c resp :
  goto page url = GotoReturns resp →
  _crawl_page rt page url c =
    let c' := inspected page url resp c in
    match _discover_links rt page url c' with
    | Some new_links => set_queue (offer new_links (_visited c) (_queue c)) c'
    | None => c'
    end.
Proof.
  intros H. unfold _crawl_page. rewrite H.
  unfold inspected, listening, status_bugs.
  destruct resp as [rsp|]; [destruct (status_is_error (Some rsp))|];
    cbv zeta; rewrite (surjective_pairing (run_detectors _ _ _ _ _));
    rewrite (surjective_pairing (run_detectors _ _ _ _ _).1);
    rewrite run_detectors_spec; simpl;
    rewrite <- ?app_assoc; simpl; done.
Qed.

(** A page visit never touches the visited set or the configuration; it
    only appends to the queue (fresh, distinct URLs) and to the log (the
    visit line, then [detect] calls on this URL). *)
Lemma crawl_page_keeps rt page url c :
  let c' := _crawl_page rt page url c in
  _visited c' = _visited c ∧ max_pages c' = max_pages c
  ∧ start_url c' = start_url c
  ∧ (∃ added, _queue c' = _queue c ++ added
      ∧ (∀ u, u ∈ added → (u ∉ _visited c) ∧ (u ∉ _queue c)) ∧ NoDup added)
  ∧ (∃ calls, log c' = log c ++ Visiting url :: calls
      ∧ ∀ e, e ∈ calls → ∃ n, e = DetectCalled n url).
Proof.
  destruct (goto page url) as [cause|resp] eqn:Hg; cbv zeta.
  - rewrite (crawl_page_failed _ _ _ _ _ Hg). simpl. split_and!; try done.
    + exists []. rewrite app_nil_r. split_and!; [done| |constructor].
      intros u Hu. by apply elem_of_nil in Hu.
    + exists []. split; [done|]. intros e He. by apply elem_of_nil in He.
  - rewrite (crawl_page_loaded _ _ _ _ _ Hg). cbv zeta.
    assert (∃ calls, log (inspected page url resp c) = log c ++ Visiting url :: calls
      ∧ ∀ e, e ∈ calls → ∃ n, e = DetectCalled n url) as Hlog.
    { simpl. eexists. split; [done|]. intros e (d & -> & _)%list_elem_of_fmap.
      by eexists. }
    destruct (_discover_links rt page url (inspected page url resp c)) as [new|];
      simpl; split_and!; try done.
    + destruct (offer_spec new (_visited c) (_queue c)) as (added & -> & Hin & Hnd).
      exists added. split_and!; [done| |done].
      intros u Hu. by destruct (Hin u Hu) as (_ & ? & ?).
    + exists []. rewrite app_nil_r. split_and!; [done| |constructor].
      intros u Hu. by apply elem_of_nil in Hu.
Qed.

End PageVisit.

(** ** The run loop *)

Lemma visited_urls_app (l1 l2 : list Event) :
  visited_urls (l1 ++ l2) = visited_urls l1 ++ visited_urls l2.
Proof.
  induction l1 as [|[u|n u] l1 IH]; simpl; [done| |done]. by rewrite IH.
Qed.

Lemma visited_urls_calls (calls : list Event) (url : string) :
  (∀ e, e ∈ calls → ∃ n, e = DetectCalled n url) → visited_urls calls = [].
Proof.
  induction calls as [|e calls IH]; intros H; [done|].
  destruct (H e) as [n ->]; [left|]. simpl. apply IH.
  intros e' He'. apply H. by right.
Qed.

Section RunFacts.
Context {DS : Type}.
Implicit Types (c : VibeCrawler DS).

Lemma run_inv_skip c c' :
  run_inv c → dequeue c = (Skip, c') → run_inv c'.
Proof.
  intros [[Hnd Hdis] Ho Hv Hb] (url & Hq & Hin & ->)%dequeue_skip.
  simpl in *. exfalso. apply (Hdis url); [|done]. rewrite Hq. left.
Qed.

Lemma run_inv_process rt page c c' url :
  run_inv c → dequeue c = (Process url, c') →
  run_inv (_crawl_page rt page url c').
Proof.
  intros [[Hnd Hdis] Ho Hv Hb] (Hq & Hfresh & Hlt & ->)%dequeue_process.
  set (c1 := set_visited _ _).
  destruct (crawl_page_keeps rt page url c1)
    as (Ev & Em & _ & (added & Eq & Hadd & Hnda) & (calls & El & Hcalls)).
  rewrite Hq in Hnd, Hdis. apply NoDup_cons in Hnd as [Hnq Hnd].
  simpl in *.
  assert (visited_urls (log (_crawl_page rt page url c1))
          = visited_urls (log c) ++ [url]) as Elog.
  { rewrite El, visited_urls_app. simpl.
    by rewrite (visited_urls_calls calls url Hcalls). }
  split.
  - rewrite Ev, Eq. split.
    + apply NoDup_app. split_and!; [done| |done].
      intros u Hu Ha. by destruct (Hadd u Ha) as [_ ?].
    + intros u [Hu|Ha]%elem_of_app.
      * intros [->%elem_of_singleton|Hin]%elem_of_union; [done|].
        apply (Hdis u); [by right|done].
      * by destruct (Hadd u Ha) as [? _].
  - rewrite Elog. apply NoDup_app. split_and!; [done| |apply NoDup_singleton].
    intros u Hu ->%list_elem_of_singleton. by apply Hfresh, Hv.
  - intros u. rewrite Ev, Elog, elem_of_union, elem_of_singleton,
      elem_of_app, list_elem_of_singleton, Hv. tauto.
  - rewrite Ev, Em, size_add_fresh by done. lia.
Qed.

Lemma run_loop_inv rt page fuel c c' :
  run_inv c → run_loop rt page fuel c = Some c' →
  run_inv c' ∧ loop_cond c' = false.
Proof.
  revert c. induction fuel as [|fuel IH]; intros c Hinv; simpl; [done|].
  destruct (dequeue c) as [[| |url] c1] eqn:Hd.
  - intros [= <-]. apply dequeue_stop in Hd as [-> ?]. done.
  - apply IH. by eapply run_inv_skip.
  - apply IH. by eapply run_inv_process.
Qed.

(** More fuel never changes the outcome. *)
Lemma run_loop_fuel_mono rt page fuel fuel' c c' :
  run_loop rt page fuel c = Some c' → (fuel ≤ fuel')%nat →
  run_loop rt page fuel' c = Some c'.
Proof.
  revert fuel' c. induction fuel as [|fuel IH]; intros fuel' c; simpl; [done|].
  intros H Hle. destruct fuel' as [|fuel']; [lia|]. simpl.
  destruct (dequeue c) as [[| |url] c1]; [done| |]; apply IH; (done || lia).
Qed.

(** The loop ends, from any crawler state: every turn either shortens the
    queue or uses up one page of the budget. *)
Lemma run_loop_terminates rt page c :
  ∃ fuel c', run_loop rt page fuel c = Some c'.
Proof.
  remember (Z.to_nat (max_pages c - Z.of_nat (size (_visited c)))) as b eqn:Hb.
  revert c Hb. induction b as [b IHb] using lt_wf_ind. intros c Hb.
  remember (length (_queue c)) as n eqn:Hn.
  revert c Hb Hn. induction n as [|n IHn]; intros c Hb Hn.
  - exists 1%nat, c. simpl. unfold dequeue, loop_cond.
    by destruct (_queue c).
  - destruct (dequeue c) as [[| |url] c1] eqn:Hd.
    + exists 1%nat, c1. simpl. by rewrite Hd.
    + pose proof Hd as (u & Hq & _ & E)%dequeue_skip.
      destruct (IHn c1) as (fuel & c' & Hrun).
      * rewrite E. simpl. done.
      * rewrite Hq in Hn. simpl in Hn. lia.
      * exists (S fuel), c'. simpl. by rewrite Hd.
    + pose proof Hd as (Hq & Hfresh & Hlt & E)%dequeue_process.
      destruct (crawl_page_keeps rt page url c1) as (Ev & Em & _).
      destruct (IHb (Z.to_nat (max_pages (_crawl_page rt page url c1)
                  - Z.of_nat (size (_visited (_crawl_page rt page url c1))))))
        with (c := _crawl_page rt page url c1) as (fuel & c' & Hrun); [|done|].
      * rewrite Ev, Em, E. simpl. rewrite size_add_fresh by done. lia.
      * exists (S fuel), c'. simpl. by rewrite Hd.
Qed.

Lemma run_unfold rt page fuel c :
  run rt page fuel c = finalize rt <$> run_loop rt page fuel (started rt c).
Proof. done. Qed.

Lemma run_terminates rt page c :
  ∃ fuel c', run rt page fuel c = Some c'.
Proof.
  destruct (run_loop_terminates rt page (started rt c)) as (fuel & c' & H).
  exists fuel, (finalize rt c'). by rewrite run_unfold, H.
Qed.

Lemma run_fuel_mono rt page fuel fuel' c c' :
  run rt page fuel c = Some c' → (fuel ≤ fuel')%nat →
  run rt page fuel' c = Some c'.
Proof.
  rewrite !run_unfold. intros H Hle.
  destruct (run_loop rt page fuel (started rt c)) as [c1|] eqn:E; [|done].
  by rewrite (run_loop_fuel_mono _ _ _ _ _ _ E Hle).
Qed.

(** A crawler fresh from [__init__] satisfies the loop invariant once the
    seed is enqueued. *)
Lemma started_inv rt (dd : list (BugDetector DS)) url max dets :
  run_inv (started rt (init dd url max dets)).
Proof.
  split.
  - simpl. split; [apply NoDup_singleton|]. intros u _. set_solver.
  - constructor.
  - intros u. simpl. set_solver.
  - change (Z.of_nat (size (∅ : gset string)) ≤ Z.max 0 max).
    rewrite size_empty. lia.
Qed.

End RunFacts.

(** ** Scheduler operations *)

Section Scheduler.
Context {DS : Type}.
Implicit Types (c : VibeCrawler DS) (processed : list string).

Lemma apply_op_inv (st : VibeCrawler DS * list string) op :
  sched_inv st → sched_inv (apply_op st op).
Proof.
  destruct st as [c processed]. intros (Hf & Hv & Hnd). destruct op; simpl.
  - split_and!; [|done|done]. simpl. by apply offer_frontier_ok.
  - destruct (dequeue c) as [[| |url] c'] eqn:Hd.
    + by apply dequeue_stop in Hd as [-> _].
    + apply dequeue_skip in Hd as (u & Hq & Hin & ->). exfalso.
      destruct Hf as [_ Hdis]. apply (Hdis u); [|done]. simpl in *.
      rewrite Hq. left.
    + apply dequeue_process in Hd as (Hq & Hfresh & _ & ->).
      destruct Hf as [Hndq Hdis]. simpl in *. rewrite Hq in Hndq, Hdis.
      apply NoDup_cons in Hndq as [Hnq Hndq].
      split_and!; simpl.
      * split; [done|]. intros u Hu.
        intros [->%elem_of_singleton|Hin]%elem_of_union; [done|].
        apply (Hdis u); [by right|done].
      * intros u. rewrite elem_of_union, elem_of_singleton, elem_of_app,
          list_elem_of_singleton, Hv. tauto.
      * apply NoDup_app. split_and!; [done| |apply NoDup_singleton].
        intros u Hu ->%list_elem_of_singleton. by apply Hfresh, Hv.
Qed.

Lemma apply_ops_inv ops (st : VibeCrawler DS * list string) :
  sched_inv st → sched_inv (apply_ops ops st).
Proof.
  revert st. induction ops as [|op ops IH]; intros st H; [done|].
  simpl. apply IH. by apply apply_op_inv.
Qed.

End Scheduler.

(** ** The loop after a page visit *)

Section LoopGoesOn.
Context {DS : Type}.
Implicit Types (c : VibeCrawler DS) (rt : Runtime) (page : Page).

Lemma visited_urls_prefix (l1 l2 : list Event) :
  l1 `prefix_of` l2 → visited_urls l1 `prefix_of` visited_urls l2.
Proof. intros [k ->]. rewrite visited_urls_app. by apply prefix_app_r. Qed.

(** A page visit only appends to the bugs, the errors and the log. *)
Lemma crawl_page_grows rt page url c :
  bugs (result c) `prefix_of` bugs (result (_crawl_page rt page url c))
  ∧ errors (result c) `prefix_of` errors (result (_crawl_page rt page url c))
  ∧ log c `prefix_of` log (_crawl_page rt page url c).
Proof.
  destruct (goto page url) as [cause|resp] eqn:Hg.
  - rewrite (crawl_page_failed _ _ _ _ _ Hg). simpl.
    split_and!; [done|by apply prefix_app_r..].
  - rewrite (crawl_page_loaded _ _ _ _ _ Hg). cbv zeta.
    destruct (_discover_links rt page url (inspected page url resp c));
      simpl; split_and!; by apply prefix_app_r.
Qed.

(** So does the rest of the loop. *)
Lemma run_loop_grows rt page fuel c c_end :
  run_loop rt page fuel c = Some c_end →
  bugs (result c) `prefix_of` bugs (result c_end)
  ∧ errors (result c) `prefix_of` errors (result c_end)
  ∧ log c `prefix_of` log c_end.
Proof.
  revert c. induction fuel as [|fuel IH]; intros c; simpl; [done|].
  destruct (dequeue c) as [[| |url] c1] eqn:Hd.
  - intros [= <-]. by apply dequeue_stop in Hd as [-> _].
  - intros H%IH. apply dequeue_skip in Hd as (? & _ & _ & E).
    by rewrite E in H.
  - intros (Hb & He & Hl)%IH.
    destruct (crawl_page_grows rt page url c1) as (Hb1 & He1 & Hl1).
    apply dequeue_process in Hd as (_ & _ & _ & E).
    assert (result c1 = result c ∧ log c1 = log c) as [Er El]
      by (by rewrite E).
    rewrite Er in Hb1, He1. rewrite El in Hl1.
    split_and!; by etrans.
Qed.

(** A loop that returns has visited the URL at the head of its queue, when
    that URL is new and the budget is not used up. *)
Lemma run_loop_visits_next rt page fuel c c_end (next : string)
    (rest : list string) :
  run_loop rt page fuel c = Some c_end →
  _queue c = next :: rest → next ∉ _visited c →
  Z.of_nat (size (_visited c)) < max_pages c →
  visited_urls (log c) ++ [next] `prefix_of` visited_urls (log c_end).
Proof.
  intros Hrun Hq Hfresh Hb. destruct fuel as [|fuel]; [done|]. simpl in Hrun.
  assert (dequeue c
          = (Process next, set_visited ({[next]} ∪ _visited c)
                             (set_queue rest c))) as Hd.
  { unfold dequeue, loop_cond. rewrite Hq.
    rewrite bool_decide_eq_true_2 by done. simpl.
    by rewrite bool_decide_eq_false_2. }
  rewrite Hd in Hrun. apply run_loop_grows in Hrun as (_ & _ & Hl).
  apply visited_urls_prefix in Hl.
  destruct (crawl_page_keeps rt page next
              (set_visited ({[next]} ∪ _visited c) (set_queue rest c)))
    as (_ & _ & _ & _ & (calls & El & Hcalls)).
  rewrite El, visited_urls_app in Hl. simpl in Hl.
  rewrite (visited_urls_calls calls next Hcalls) in Hl. done.
Qed.

Lemma crawl_page_visited_urls rt page url c :
  visited_urls (log (_crawl_page rt page url c))
  = visited_urls (log c) ++ [url].
Proof.
  destruct (crawl_page_keeps rt page url c)
    as (_ & _ & _ & _ & (calls & -> & Hcalls)).
  rewrite visited_urls_app. simpl.
  by rewrite (visited_urls_calls calls url Hcalls).
Qed.

End LoopGoesOn.

(** * The claims *)

Section Claims.
Context {DS : Type}.
Implicit Types (c : VibeCrawler DS) (rt : Runtime) (page : Page).

(** C1. Frontier invariant.  From a fresh crawler with its seed enqueued,
    after any sequence of offers and dequeues: no queued URL is in the
    visited set; the visited set holds exactly the URLs dequeued for
    processing so far (an offer and the seed enqueue leave it as it is, a
    dequeue for processing adds the dequeued URL, which was not in it); and no
    URL was dequeued for processing twice.  The same holds of a whole run,
    which ends: its log has each visited URL once, however many pages link to
    it. *)
Theorem frontier_invariant rt page
    (dd : list (BugDetector DS)) (url : string) (max : Z)
    (dets : option (list (BugDetector DS))) (ops : list SchedOp) :
  let c0 := enqueue_seed (init dd url max dets) in
  let st := apply_ops ops (c0, []) in
  (∀ u, u ∈ _queue st.1 → u ∉ _visited st.1)
  ∧ (∀ u, u ∈ _visited st.1 ↔ u ∈ st.2)
  ∧ NoDup st.2
  ∧ _visited c0 = ∅
  ∧ (∀ cands, _visited (apply_op st (OpOffer cands)).1 = _visited st.1
              ∧ (apply_op st (OpOffer cands)).2 = st.2)
  ∧ (_visited (apply_op st OpDequeue).1 = _visited st.1
       ∧ (apply_op st OpDequeue).2 = st.2
     ∨ ∃ u, (u ∉ _visited st.1)
         ∧ _visited (apply_op st OpDequeue).1 = {[u]} ∪ _visited st.1
         ∧ (apply_op st OpDequeue).2 = st.2 ++ [u])
  ∧ ∃ fuel c', run rt page fuel (init dd url max dets) = Some c'
      ∧ NoDup (visited_urls (log c'))
      ∧ (∀ u, u ∈ _visited c' ↔ u ∈ visited_urls (log c'))
      ∧ (∀ u, u ∈ _queue c' → u ∉ _visited c').
Proof.
  intros c0 st.
  assert (sched_inv st) as ((_ & Hdis) & Hv & Hnd).
  { apply apply_ops_inv. split_and!; simpl.
    - split; [apply NoDup_singleton|]. intros u _. set_solver.
    - intros u. set_solver.
    - constructor. }
  split_and!; try done.
  - by destruct st.
  - destruct st as [c processed]. simpl.
    destruct (dequeue c) as [[| |u] c'] eqn:Hd.
    + left. by apply dequeue_stop in Hd as [-> _].
    + left. by apply dequeue_skip in Hd as (? & _ & _ & ->).
    + right. exists u. by apply dequeue_process in Hd as (_ & ? & _ & ->).
  - destruct (run_loop_terminates rt page (started rt (init dd url max dets)))
      as (fuel & c' & Hrun).
    exists fuel, (finalize rt c'). rewrite run_unfold, Hrun.
    destruct (run_loop_inv _ _ _ _ _ (started_inv rt dd url max dets) Hrun)
      as [[[_ Hd'] Ho' Hv' _] _].
    done.
Qed.

Lemma dequeue_budget c :
  Z.of_nat (size (_visited c)) < max_pages c ∨ dequeue c = (Stop, c).
Proof.
  destruct (decide (Z.of_nat (size (_visited c)) < max_pages c)) as [?|Hn];
    [by left|right].
  unfold dequeue, loop_cond. destruct (_queue c); [done|].
  by rewrite bool_decide_eq_false_2.
Qed.

Lemma run_budget rt page fuel c0 c' :
  run_inv c0 → run_loop rt page fuel c0 = Some c' →
  let r := result (finalize rt c') in
  pages_visited r = size (_visited c')
  ∧ pages_visited r = length (visited_urls (log c'))
  ∧ Z.of_nat (pages_visited r) ≤ Z.max 0 (max_pages c').
Proof.
  intros Hinv Hrun. destruct (run_loop_inv _ _ _ _ _ Hinv Hrun)
    as [[_ Ho Hv Hb] _].
  simpl. split_and!; [done| |done].
  rewrite <- (size_list_to_set (C := gset string)) by done.
  f_equal. apply set_eq. intros u. by rewrite Hv, elem_of_list_to_set.
Qed.

Lemma run_loop_max_pages rt page fuel c c' :
  run_loop rt page fuel c = Some c' → max_pages c' = max_pages c.
Proof.
  revert c. induction fuel as [|fuel IH]; intros c; simpl; [done|].
  destruct (dequeue c) as [[| |url] c1] eqn:Hd.
  - intros [= <-]. by apply dequeue_stop in Hd as [-> _].
  - intros ->%IH. by apply dequeue_skip in Hd as (? & _ & _ & ->).
  - intros ->%IH. destruct (crawl_page_keeps rt page url c1) as (_ & -> & _).
    by apply dequeue_process in Hd as (_ & _ & _ & ->).
Qed.

(** C7, as the code has it.  A run ends with [pages_visited] equal to the
    size of the visited set (and to the number of pages the log shows), and
    this never exceeds [max_pages] when [max_pages] is not negative (it is 0
    when it is).  In every crawler state, either the budget is not used up or
    the loop stops there, leaving the queue as it is.  With [max_pages = 1]
    the run visits the seed URL (without its trailing slashes) and nothing
    else. *)
Theorem page_budget rt page
    (dd : list (BugDetector DS)) (url : string) (max : Z)
    (dets : option (list (BugDetector DS))) :
  (∃ fuel c', run rt page fuel (init dd url max dets) = Some c'
      ∧ pages_visited (result c') = size (_visited c')
      ∧ pages_visited (result c') = length (visited_urls (log c'))
      ∧ Z.of_nat (pages_visited (result c')) ≤ Z.max 0 max)
  ∧ (∀ c, Z.of_nat (size (_visited c)) < max_pages c
          ∨ (∀ fuel, run_loop rt page (S fuel) c = Some c))
  ∧ (∃ fuel c', run rt page fuel (init dd url 1 dets) = Some c'
      ∧ visited_urls (log c') = [PyStr.rstrip_slash url]
      ∧ _visited c' = {[PyStr.rstrip_slash url]}
      ∧ pages_visited (result c') = 1%nat).
Proof.
  split_and!.
  - destruct (run_loop_terminates rt page (started rt (init dd url max dets)))
      as (fuel & c' & Hrun).
    exists fuel, (finalize rt c'). rewrite run_unfold, Hrun.
    destruct (run_budget _ _ _ _ _ (started_inv rt dd url max dets) Hrun)
      as (H1 & H2 & H3).
    rewrite (run_loop_max_pages _ _ _ _ _ Hrun) in H3. done.
  - intros c. destruct (dequeue_budget c) as [?|Hd]; [by left|right].
    intros fuel. simpl. by rewrite Hd.
  - set (c0 := started rt (init dd url 1 dets)).
    set (seed := PyStr.rstrip_slash url).
    set (c1 := set_visited ({[seed]} ∪ ∅) (set_queue [] c0)).
    assert (dequeue c0 = (Process seed, c1)) as Hd0.
    { unfold dequeue, loop_cond. simpl.
      rewrite bool_decide_eq_true_2
        by (change (Z.of_nat (size (∅ : gset string)) < 1);
            rewrite size_empty; lia).
      rewrite bool_decide_eq_false_2 by set_solver. done. }
    set (c2 := _crawl_page rt page seed c1).
    destruct (crawl_page_keeps rt page seed c1)
      as (Ev & Em & _ & _ & (calls & El & Hcalls)). fold c2 in Ev, Em, El.
    assert (size (_visited c2) = 1%nat) as Hsz.
    { rewrite Ev. change (_visited c1) with ({[seed]} ∪ (∅ : gset string)).
      rewrite size_add_fresh by set_solver. by rewrite size_empty. }
    assert (dequeue c2 = (Stop, c2)) as Hd2.
    { destruct (dequeue_budget c2) as [Hlt|?]; [|done].
      rewrite Em, Hsz in Hlt. simpl in Hlt. lia. }
    exists 2%nat, (finalize rt c2). rewrite run_unfold. fold c0.
    cbn [run_loop]. rewrite Hd0. fold c2. rewrite Hd2.
    cbn [fmap option_fmap option_map finalize set_result result _visited log
         pages_visited].
    split_and!; [done| | |done].
    + rewrite El. simpl. by rewrite (visited_urls_calls calls seed Hcalls).
    + rewrite Ev. change (_visited c1) with ({[seed]} ∪ (∅ : gset string)).
      apply (right_id_L ∅ (∪)).
Qed.

(** C2. A detector whose [detect] raises on a loaded page adds exactly one
    entry to [errors], naming the detector and the page; the detectors before
    and after it are all called, in registration order, and what they return
    is in [bugs]; the page visit goes on to link discovery.  The crawl
    continues: the loop whose turn dequeued this page returns a result, which
    still holds the errors and bugs recorded on the page, and in which the
    next queued URL has been visited after this one (when that URL is new and
    the budget allows). *)
Theorem detector_failure_isolated rt page url c resp
    (ds1 ds2 : list (BugDetector DS)) (d : BugDetector DS) (e : string) :
  goto page url = GotoReturns resp →
  listening page url c = ds1 ++ d :: ds2 →
  (detect d (det_state d) page url).1 = DetectRaises e →
  let c' := _crawl_page rt page url c in
  errors (result c') =
    errors (result c) ++ concat (raised page url <$> ds1)
      ++ ["Detector " +:+ name d +:+ " failed on " +:+ url +:+ ": " +:+ e]
      ++ concat (raised page url <$> ds2)
  ∧ bugs (result c') =
      bugs (result c) ++ status_bugs url resp
        ++ concat (returned page url <$> ds1)
        ++ concat (returned page url <$> ds2)
  ∧ log c' =
      log c ++ [Visiting url] ++ (detect_call url <$> ds1)
        ++ [DetectCalled (name d) url] ++ (detect_call url <$> ds2)
  ∧ _queue c' =
      match _discover_links rt page url (inspected page url resp c) with
      | Some new_links => offer new_links (_visited c) (_queue c)
      | None => _queue c
      end
  ∧ ∀ c0, dequeue c0 = (Process url, c) →
      ∃ fuel c_end,
        run_loop rt page fuel c0 = Some c_end
        ∧ errors (result c') `prefix_of` errors (result c_end)
        ∧ bugs (result c') `prefix_of` bugs (result c_end)
        ∧ visited_urls (log c) ++ [url] `prefix_of` visited_urls (log c_end)
        ∧ ∀ next rest,
            _queue c' = next :: rest → next ∉ _visited c' →
            Z.of_nat (size (_visited c')) < max_pages c' →
            visited_urls (log c) ++ [url; next]
              `prefix_of` visited_urls (log c_end).
Proof.
  intros Hg Hds He c'.
  assert (raised page url d = [detector_error d url e]) as Hr
    by (unfold raised; by rewrite He).
  assert (returned page url d = []) as Hb
    by (unfold returned; by rewrite He).
  pose proof (crawl_page_visited_urls rt page url c) as Hvis. fold c' in Hvis.
  split_and!.
  1-4: subst c'; rewrite (crawl_page_loaded _ _ _ _ _ Hg); cbv zeta;
    destruct (_discover_links rt page url (inspected page url resp c));
    cbn [set_queue inspected result errors bugs log _queue];
    rewrite ?Hds, ?fmap_app, ?fmap_cons, ?concat_app, ?concat_cons, ?Hr, ?Hb;
    simpl; rewrite <- ?app_assoc; done.
  - intros c0 Hd.
    destruct (run_loop_terminates rt page c0) as (fuel & c_end & Hrun).
    exists fuel, c_end. split; [done|].
    destruct fuel as [|fuel]; [done|]. simpl in Hrun. rewrite Hd in Hrun.
    fold c' in Hrun.
    destruct (run_loop_grows _ _ _ _ _ Hrun) as (Hbugs & Herrs & Hl).
    apply visited_urls_prefix in Hl. rewrite Hvis in Hl.
    split_and!; [done..|].
    intros next rest Hq Hfresh Hbudget.
    pose proof (run_loop_visits_next _ _ _ _ _ _ _ Hrun Hq Hfresh Hbudget)
      as Hnext.
    by rewrite Hvis, <- app_assoc in Hnext.
Qed.

(** C5. When the navigation to a page raises, the visit appends the one
    error ["Failed to load <url>: <cause>"], adds no bug, calls no detector
    and offers no link; the loop then goes on with what is left in the
    queue.  The crawl does not abort: the loop returns a result, which holds
    that error after the earlier ones and every earlier bug, and in which the
    next queued URL has been visited right after the failed one (when that
    URL is new and the budget allows). *)
Theorem navigation_failure_recorded rt page c0 c url cause (fuel : nat) :
  goto page url = GotoRaises cause →
  dequeue c0 = (Process url, c) →
  let c' := _crawl_page rt page url c in
  errors (result c') =
    errors (result c0) ++ ["Failed to load " +:+ url +:+ ": " +:+ cause]
  ∧ bugs (result c') = bugs (result c0)
  ∧ log c' = log c0 ++ [Visiting url]
  ∧ _queue c0 = url :: _queue c'
  ∧ run_loop rt page (S fuel) c0 = run_loop rt page fuel c'
  ∧ ∃ fuel' c_end,
      run_loop rt page fuel' c0 = Some c_end
      ∧ errors (result c0) ++ ["Failed to load " +:+ url +:+ ": " +:+ cause]
          `prefix_of` errors (result c_end)
      ∧ bugs (result c0) `prefix_of` bugs (result c_end)
      ∧ visited_urls (log c0) ++ [url] `prefix_of` visited_urls (log c_end)
      ∧ ∀ next rest,
          _queue c0 = url :: next :: rest →
          next ≠ url → next ∉ _visited c0 →
          Z.of_nat (size (_visited c0)) + 1 < max_pages c0 →
          visited_urls (log c0) ++ [url; next]
            `prefix_of` visited_urls (log c_end).
Proof.
  intros Hg Hd c'.
  assert (errors (result c')
            = errors (result c0)
                ++ ["Failed to load " +:+ url +:+ ": " +:+ cause]
          ∧ bugs (result c') = bugs (result c0)
          ∧ log c' = log c0 ++ [Visiting url]
          ∧ _queue c0 = url :: _queue c'
          ∧ _visited c' = {[url]} ∪ _visited c0
          ∧ max_pages c' = max_pages c0
          ∧ (url ∉ _visited c0)) as (He & Hb & Hl & Hq & Hv & Hm & Hfresh).
  { subst c'. rewrite (crawl_page_failed _ _ _ _ _ Hg). simpl.
    by apply dequeue_process in Hd as (? & ? & _ & ->). }
  split_and!; [done..| |].
  { simpl. by rewrite Hd. }
  destruct (run_loop_terminates rt page c0) as (fuel' & c_end & Hrun).
  exists fuel', c_end. split; [done|].
  destruct fuel' as [|fuel']; [done|]. simpl in Hrun. rewrite Hd in Hrun.
  fold c' in Hrun.
  destruct (run_loop_grows _ _ _ _ _ Hrun) as (Hbugs & Herrs & Hlog).
  apply visited_urls_prefix in Hlog.
  rewrite Hl, visited_urls_app in Hlog. rewrite He in Herrs.
  rewrite Hb in Hbugs. split_and!; [done..|].
  intros next rest Hq0 Hne Hnew Hbudget.
  assert (_queue c' = next :: rest) as Hq' by congruence.
  assert (visited_urls (log c') ++ [next]
            `prefix_of` visited_urls (log c_end)) as Hnext.
  { apply (run_loop_visits_next _ _ _ _ _ _ _ Hrun Hq').
    - rewrite Hv. by intros [?%elem_of_singleton|?]%elem_of_union.
    - rewrite Hv, Hm, size_add_fresh by done. lia. }
  by rewrite Hl, visited_urls_app, <- app_assoc in Hnext.
Qed.

(** C6. When the navigation returns a response whose status is at least 400,
    the visit appends one bug of category ["http"], severity high and title
    ["HTTP <status>"], and every bug the detectors return on that page comes
    after it. *)
Theorem http_status_bug rt page url c (r : Response) :
  goto page url = GotoReturns (Some r) →
  400 ≤ status r →
  let c' := _crawl_page rt page url c in
  bugs (result c') =
    bugs (result c)
      ++ [mkBug url "http" HIGH ("HTTP " +:+ pretty (status r))
                ("Page returned status " +:+ pretty (status r)) None None []]
      ++ concat (returned page url <$> listening page url c).
Proof.
  intros Hg Hs c'. subst c'. rewrite (crawl_page_loaded _ _ _ _ _ Hg).
  cbv zeta.
  destruct (_discover_links rt page url (inspected page url (Some r) c));
    cbn [set_queue inspected result bugs status_bugs];
    unfold status_is_error; rewrite bool_decide_eq_true_2 by done; done.
Qed.

(** C10. When the navigation returns no response object, the status check
    is false without looking at any status, no HTTP bug is added, and every
    registered detector is called on the page. *)
Theorem absent_response_guarded rt page url c :
  goto page url = GotoReturns None →
  let c' := _crawl_page rt page url c in
  status_is_error None = false
  ∧ bugs (result c') =
      bugs (result c) ++ concat (returned page url <$> listening page url c)
  ∧ log c' =
      log c ++ [Visiting url] ++ (detect_call url <$> listening page url c)
  ∧ length (listening page url c) = length (detectors c).
Proof.
  intros Hg c'. subst c'. rewrite (crawl_page_loaded _ _ _ _ _ Hg).
  cbv zeta. split; [done|].
  destruct (_discover_links rt page url (inspected page url None c));
    simpl; unfold listening; rewrite length_fmap; done.
Qed.

End Claims.

(** ** The report summary *)

Lemma sum_values_bump (k : string) (d : gmap string nat) :
  sum_values (bump k d) = S (sum_values d).
Proof.
  assert (∀ z1 z2 y : nat, (z1 + (z2 + y) = z2 + (z1 + y))%nat) as Hcomm
    by (intros; lia).
  unfold sum_values, bump. destruct (d !! k) as [w|] eqn:E; simpl.
  - rewrite (map_fold_delete_L _ _ k w d) by (intros; apply Hcomm || done).
    rewrite <- (insert_delete_eq d).
    rewrite map_fold_insert_L;
      [lia | intros; by apply Hcomm | apply lookup_delete_eq].
  - rewrite map_fold_insert_L; [lia | intros; by apply Hcomm | done].
Qed.

Lemma report_add_all (bs : list Bug) (data : Report) :
  let data' := foldl report_add data bs in
  total_bugs (summary data') = total_bugs (summary data)
  ∧ sum_values (by_severity (summary data'))
    = (sum_values (by_severity (summary data)) + length bs)%nat
  ∧ sum_values (by_category (summary data'))
    = (sum_values (by_category (summary data)) + length bs)%nat
  ∧ report_bugs data' = report_bugs data ++ bs.
Proof.
  revert data. induction bs as [|b bs IH]; intros data; simpl.
  - rewrite app_nil_r. split_and!; (done || lia).
  - destruct (IH (report_add data b)) as (H1 & H2 & H3 & H4).
    rewrite H1, H2, H3, H4. simpl. rewrite !sum_values_bump, <- app_assoc.
    split_and!; (done || lia).
Qed.

(** C9. In the report generated from a result with N bugs, [total_bugs] is
    N, the values of [by_severity] add up to N and so do the values of
    [by_category]; the report lists the N bugs themselves. *)
Theorem report_summary_counts (r : CrawlResult) :
  let s := summary (generate_json_report r) in
  total_bugs s = length (bugs r)
  ∧ sum_values (by_severity s) = length (bugs r)
  ∧ sum_values (by_category s) = length (bugs r)
  ∧ report_bugs (generate_json_report r) = bugs r.
Proof.
  unfold generate_json_report.
  destruct (report_add_all (bugs r)
    (mkReport "Vibe Crawler" (result_start_url r) (pages_visited r)
       (started_at r) (finished_at r)
       (mkSummary (length (bugs r)) ∅ ∅) [] (errors r)))
    as (H1 & H2 & H3 & H4).
  cbv zeta. rewrite H1, H2, H3, H4. simpl. unfold sum_values.
  rewrite !map_fold_empty. done.
Qed.

(** ** Dependence on the set's iteration order *)

Section SetOrder.
Context {DS : Type}.
Implicit Types (c : VibeCrawler DS) (rt : Runtime) (page : Page)
  (v : gset string) (q links : list string).

Lemma offer_elem links v q (u : string) :
  u ∈ offer links v q ↔ u ∈ q ∨ (u ∈ links ∧ u ∉ v).
Proof.
  revert q. induction links as [|link rest IH]; intros q; simpl.
  - rewrite elem_of_nil. tauto.
  - destruct (bool_decide (link ∉ v)) eqn:Hv; simpl;
      [destruct (bool_decide (link ∉ q)) eqn:Hq; simpl|];
      rewrite IH, ?elem_of_app, ?list_elem_of_singleton, elem_of_cons.
    + apply bool_decide_eq_true in Hv. split; [|intros [?|[[->|?] ?]]; tauto].
      intros [[?| ->]|[? ?]]; tauto.
    + apply bool_decide_eq_false in Hq. apply dec_stable in Hq.
      split; [tauto|]. intros [?|[[->|?] ?]]; tauto.
    + apply bool_decide_eq_false in Hv.
      split; [tauto|]. intros [?|[[->|?] ?]]; tauto.
Qed.

Lemma offer_permutation links1 links2 v q :
  (∀ u, u ∈ links1 ↔ u ∈ links2) →
  offer links1 v q ≡ₚ offer links2 v q.
Proof.
  intros Hsame.
  destruct (offer_spec links1 v q) as (a1 & E1 & Hin1 & Hnd1).
  destruct (offer_spec links2 v q) as (a2 & E2 & Hin2 & Hnd2).
  assert (∀ links a, offer links v q = q ++ a →
            (∀ u, u ∈ a → u ∈ links ∧ (u ∉ v) ∧ (u ∉ q)) →
            ∀ u, u ∈ a ↔ u ∈ links ∧ (u ∉ v) ∧ (u ∉ q)) as Hchar.
  { intros links a E Hin u. split; [apply Hin|]. intros (Hl & Hv & Hq).
    assert (u ∈ offer links v q) as Ho by (apply offer_elem; tauto).
    rewrite E in Ho. apply elem_of_app in Ho as [?|?]; done. }
  rewrite E1, E2. apply Permutation_app_head, NoDup_Permutation; [done..|].
  intros u. rewrite (Hchar links1 a1 E1 Hin1), (Hchar links2 a2 E2 Hin2), Hsame.
  done.
Qed.

Lemma collect_links_ext rt1 rt2 c (hs links : list string) :
  (∀ u, netloc rt1 u = netloc rt2 u) →
  collect_links rt1 c hs links = collect_links rt2 c hs links.
Proof.
  intros Hn. revert links. induction hs as [|href hs IH]; intros links; simpl;
    [done|].
  unfold _same_origin. rewrite !Hn.
  destruct (PyStr.truthy _); [|apply IH].
  destruct (netloc rt2 (clean_href href)), (netloc rt2 (start_url c));
    try done.
  destruct (bool_decide _); [destruct (bool_decide _)|]; apply IH.
Qed.

Lemma crawl_page_ext rt1 rt2 page url c :
  (∀ u, netloc rt1 u = netloc rt2 u) →
  (∀ l, set_iter rt1 l = set_iter rt2 l) →
  _crawl_page rt1 page url c = _crawl_page rt2 page url c.
Proof.
  intros Hn Hs. destruct (goto page url) as [cause|resp] eqn:Hg.
  - by rewrite !(crawl_page_failed _ _ _ _ _ Hg).
  - rewrite !(crawl_page_loaded _ _ _ _ _ Hg). cbv zeta.
    unfold _discover_links. destruct (hrefs page url) as [hs|]; [|done].
    rewrite (collect_links_ext rt1 rt2 _ _ _ Hn).
    destruct (collect_links rt2 _ hs []) as [out|]; simpl; [|done].
    by rewrite Hs.
Qed.

Lemma run_loop_ext rt1 rt2 page fuel c :
  (∀ u, netloc rt1 u = netloc rt2 u) →
  (∀ l, set_iter rt1 l = set_iter rt2 l) →
  run_loop rt1 page fuel c = run_loop rt2 page fuel c.
Proof.
  intros Hn Hs. revert c. induction fuel as [|fuel IH]; intros c; simpl;
    [done|].
  destruct (dequeue c) as [[| |url] c1]; [done|apply IH|].
  rewrite (crawl_page_ext rt1 rt2 _ _ _ Hn Hs). apply IH.
Qed.

Lemma collect_links_frontier rt c1 c2 (hs links : list string) :
  start_url c1 = start_url c2 → _visited c1 = _visited c2 →
  collect_links rt c1 hs links = collect_links rt c2 hs links.
Proof.
  intros Hs Hv. revert links. induction hs as [|href hs IH]; intros links;
    simpl; [done|].
  unfold _same_origin. rewrite Hs, Hv.
  destruct (PyStr.truthy _); [|apply IH].
  destruct (netloc rt (clean_href href)), (netloc rt (start_url c2));
    try done.
  destruct (bool_decide _); [destruct (bool_decide _)|]; apply IH.
Qed.

Lemma crawl_page_retime rt page url c (t : string) :
  _crawl_page rt page url (retime t c) = retime t (_crawl_page rt page url c).
Proof.
  destruct (goto page url) as [cause|resp] eqn:Hg.
  - by rewrite !(crawl_page_failed _ _ _ _ _ Hg).
  - rewrite !(crawl_page_loaded _ _ _ _ _ Hg). cbv zeta.
    unfold _discover_links. destruct (hrefs page url) as [hs|]; [|done].
    rewrite (collect_links_frontier rt (inspected page url resp (retime t c))
               (inspected page url resp c)) by done.
    by destruct (collect_links rt (inspected page url resp c) hs []).
Qed.

Lemma dequeue_retime c (t : string) :
  dequeue (retime t c) = ((dequeue c).1, retime t (dequeue c).2).
Proof.
  unfold dequeue, loop_cond. simpl. destruct (_queue c) as [|u rest]; [done|].
  destruct (bool_decide (_ < _)); [|done]. simpl.
  by destruct (bool_decide (u ∈ _visited c)).
Qed.

Lemma run_loop_retime rt page fuel c (t : string) :
  run_loop rt page fuel (retime t c) = retime t <$> run_loop rt page fuel c.
Proof.
  revert c. induction fuel as [|fuel IH]; intros c; simpl; [done|].
  rewrite dequeue_retime. destruct (dequeue c) as [[| |url] c1]; simpl;
    [done|apply IH|].
  rewrite crawl_page_retime. apply IH.
Qed.

(** C4, as the code has it.  With the site, the configuration and the
    iteration order of sets fixed, a second run (at another time) visits the
    same pages in the same order and finds the same bugs and errors, in the
    same order.  The iteration order itself only decides in which order the
    new links of one page join the queue: from the same crawler state, under
    any two iteration orders, a page visit gives the same result and log, the
    same visited set, and queues that are permutations of one another. *)
Theorem crawl_deterministic_given_set_order rt1 rt2 page url c
    (fuel : nat) (t_start t_finish : string) :
  (∀ u, netloc rt1 u = netloc rt2 u) →
  set_iter_ok (set_iter rt1) → set_iter_ok (set_iter rt2) →
  option_Forall2 same_findings
    (run rt1 page fuel c) (run (later rt1 t_start t_finish) page fuel c)
  ∧ result (_crawl_page rt1 page url c) = result (_crawl_page rt2 page url c)
  ∧ log (_crawl_page rt1 page url c) = log (_crawl_page rt2 page url c)
  ∧ _visited (_crawl_page rt1 page url c) = _visited (_crawl_page rt2 page url c)
  ∧ _queue (_crawl_page rt1 page url c) ≡ₚ _queue (_crawl_page rt2 page url c).
Proof.
  intros Hn Hok1 Hok2. split.
  - rewrite !run_unfold.
    change (started (later rt1 t_start t_finish) c)
      with (retime t_start (started rt1 c)).
    rewrite (run_loop_ext (later rt1 t_start t_finish) rt1) by done.
    rewrite run_loop_retime.
    destruct (run_loop rt1 page fuel (started rt1 c)) as [c'|]; constructor.
    by split_and!.
  - destruct (goto page url) as [cause|resp] eqn:Hg.
    + by rewrite !(crawl_page_failed _ _ _ _ _ Hg).
    + rewrite !(crawl_page_loaded _ _ _ _ _ Hg). cbv zeta.
      unfold _discover_links. destruct (hrefs page url) as [hs|]; [|done].
      rewrite (collect_links_ext rt1 rt2 _ _ _ Hn).
      destruct (collect_links rt2 (inspected page url resp c) hs [])
        as [out|]; simpl; [|done].
      split_and!; [done..|].
      apply offer_permutation. intros u.
      destruct (Hok1 out) as [_ ->]. destruct (Hok2 out) as [_ ->].
      done.
Qed.

End SetOrder.

(** ** The claims at the sample sites *)

Lemma set_iter_ok_first : set_iter_ok (set_iter Sample.rt_first).
Proof.
  intros l. split; [apply NoDup_remove_dups|].
  intros x. apply elem_of_remove_dups.
Defined.

Lemma set_iter_ok_last : set_iter_ok (set_iter Sample.rt_last).
Proof.
  intros l. split;
    [simpl; rewrite reverse_Permutation; apply NoDup_remove_dups|].
  intros x. simpl. rewrite elem_of_reverse. apply elem_of_remove_dups.
Defined.

(** The home page of the shop: the failing detector leaves one error, the
    detector after it still reports. *)
Lemma detector_failure_isolated_shop :
  let c := (dequeue (started Sample.rt_last (Sample.crawler 20))).2 in
  let c' := _crawl_page Sample.rt_last Sample.shop "https://shop.test" c in
  errors (result c') = ["Detector flaky failed on https://shop.test: probe failed"]
  ∧ bugs (result c') = [Sample.no_title "https://shop.test"]
  ∧ log c' = [Visiting "https://shop.test";
              DetectCalled "console_errors" "https://shop.test";
              DetectCalled "flaky" "https://shop.test";
              DetectCalled "meta_seo" "https://shop.test"]
  ∧ _queue c' = ["https://shop.test/a"; "https://shop.test/b"]
  ∧ ∃ fuel c_end,
      run_loop Sample.rt_last Sample.shop fuel
        (started Sample.rt_last (Sample.crawler 20)) = Some c_end
      ∧ ["Detector flaky failed on https://shop.test: probe failed"]
          `prefix_of` errors (result c_end)
      ∧ [Sample.no_title "https://shop.test"] `prefix_of` bugs (result c_end)
      ∧ ["https://shop.test"; "https://shop.test/a"]
          `prefix_of` visited_urls (log c_end).
Proof.
  intros c c'.
  destruct (detector_failure_isolated Sample.rt_last Sample.shop
              "https://shop.test" c (Some (mkResponse 200))
              [ConsoleErrorDetector.new] [Sample.title_check] Sample.flaky
              "probe failed" eq_refl eq_refl eq_refl)
    as (He & Hb & Hl & Hq & Hgo).
  split_and!; [exact He|exact Hb|exact Hl|exact Hq|].
  destruct (Hgo (started Sample.rt_last (Sample.crawler 20)) eq_refl)
    as (fuel & c_end & Hrun & Herrs & Hbugs & _ & Hnext).
  exists fuel, c_end. split_and!; [exact Hrun|exact Herrs|exact Hbugs|].
  apply (Hnext "https://shop.test/a" ["https://shop.test/b"] eq_refl).
  - change ("https://shop.test/a"
              ∉ ({["https://shop.test"]} ∪ ∅ : gset string)).
    intros [[=]%elem_of_singleton|[]%elem_of_empty]%elem_of_union.
  - reflexivity.
Defined.

(** [/a] times out: one error, no bug, no detector call, and the loop goes
    on with [/b]. *)
Lemma navigation_failure_recorded_shop :
  let c0 := shop_after_home in
  let c' := _crawl_page Sample.rt_last Sample.shop "https://shop.test/a"
              (dequeue c0).2 in
  errors (result c') =
    errors (result c0)
      ++ ["Failed to load https://shop.test/a: Timeout 20000ms exceeded."]
  ∧ bugs (result c') = bugs (result c0)
  ∧ log c' = log c0 ++ [Visiting "https://shop.test/a"]
  ∧ _queue c0 = "https://shop.test/a" :: _queue c'
  ∧ run_loop Sample.rt_last Sample.shop 3 c0
    = run_loop Sample.rt_last Sample.shop 2 c'
  ∧ ∃ fuel c_end,
      run_loop Sample.rt_last Sample.shop fuel c0 = Some c_end
      ∧ ["Detector flaky failed on https://shop.test: probe failed";
         "Failed to load https://shop.test/a: Timeout 20000ms exceeded."]
          `prefix_of` errors (result c_end)
      ∧ [Sample.no_title "https://shop.test"] `prefix_of` bugs (result c_end)
      ∧ ["https://shop.test"; "https://shop.test/a"; "https://shop.test/b"]
          `prefix_of` visited_urls (log c_end).
Proof.
  intros c0 c'.
  destruct (navigation_failure_recorded Sample.rt_last Sample.shop c0
              (dequeue c0).2 "https://shop.test/a"
              "Timeout 20000ms exceeded." 2 eq_refl eq_refl)
    as (He & Hb & Hl & Hq & Hstep & fuel & c_end & Hrun & Herrs & Hbugs
        & _ & Hnext).
  split_and!; [exact He|exact Hb|exact Hl|exact Hq|exact Hstep|].
  exists fuel, c_end. split_and!; [exact Hrun|exact Herrs|exact Hbugs|].
  apply (Hnext "https://shop.test/b" [] eq_refl).
  - discriminate.
  - change ("https://shop.test/b"
              ∉ ({["https://shop.test"]} ∪ ∅ : gset string)).
    intros [[=]%elem_of_singleton|[]%elem_of_empty]%elem_of_union.
  - reflexivity.
Defined.

(** [/b] answers 404: the HTTP bug comes first, then the detectors' bugs. *)
Lemma http_status_bug_shop :
  let c := (dequeue (started Sample.rt_first (Sample.crawler 20))).2 in
  bugs (result (_crawl_page Sample.rt_first Sample.shop "https://shop.test/b" c))
  = [mkBug "https://shop.test/b" "http" HIGH "HTTP 404"
           "Page returned status 404" None None [];
     Sample.no_title "https://shop.test/b"].
Proof.
  intros c.
  exact (http_status_bug Sample.rt_first Sample.shop "https://shop.test/b" c
           (mkResponse 404) eq_refl ltac:(simpl; lia)).
Defined.

(** [/c] loads without a response object: no HTTP bug, all three detectors
    are called. *)
Lemma absent_response_guarded_shop :
  let c := (dequeue (started Sample.rt_first (Sample.crawler 20))).2 in
  let c' := _crawl_page Sample.rt_first Sample.shop "https://shop.test/c" c in
  status_is_error None = false
  ∧ bugs (result c') = [Sample.no_title "https://shop.test/c"]
  ∧ log c' = [Visiting "https://shop.test/c";
              DetectCalled "console_errors" "https://shop.test/c";
              DetectCalled "flaky" "https://shop.test/c";
              DetectCalled "meta_seo" "https://shop.test/c"]
  ∧ length (listening Sample.shop "https://shop.test/c" c) = 3%nat.
Proof.
  intros c.
  exact (absent_response_guarded Sample.rt_first Sample.shop
           "https://shop.test/c" c eq_refl).
Defined.

(** Two runs of the same crawl at different times, and one page visit under
    the two iteration orders. *)
Lemma crawl_deterministic_given_set_order_shop :
  option_Forall2 same_findings
    (run Sample.rt_first Sample.shop 10 (Sample.crawler 20))
    (run (later Sample.rt_first "2024-06-01T00:00:00" "2024-06-01T00:00:08")
         Sample.shop 10 (Sample.crawler 20))
  ∧ _queue shop_after_home
    ≡ₚ _queue (_crawl_page Sample.rt_first Sample.shop "https://shop.test"
                 (dequeue (started Sample.rt_last (Sample.crawler 20))).2).
Proof.
  pose proof (crawl_deterministic_given_set_order
                Sample.rt_last Sample.rt_first Sample.shop "https://shop.test"
                (dequeue (started Sample.rt_last (Sample.crawler 20))).2
                0 "" "" (λ _, eq_refl) set_iter_ok_last set_iter_ok_first)
    as (_ & _ & _ & _ & Hq).
  pose proof (crawl_deterministic_given_set_order
                Sample.rt_first Sample.rt_first Sample.shop "https://shop.test"
                (Sample.crawler 20)
                10 "2024-06-01T00:00:00" "2024-06-01T00:00:08"
                (λ _, eq_refl) set_iter_ok_first set_iter_ok_first)
    as (Hrun & _).
  exact (conj Hrun Hq).
Defined.

(** C4 as stated fails: with the budget at two pages, the same site and the
    same configuration give two different crawls, one for each iteration
    order of the set of links found on the home page. *)
Lemma crawl_order_follows_set_order :
  set_iter_ok (set_iter Sample.rt_first)
  ∧ set_iter_ok (set_iter Sample.rt_last)
  ∧ visited_urls ∘ log <$> run Sample.rt_first Sample.shop 10 (Sample.crawler 2)
    = Some ["https://shop.test"; "https://shop.test/b"]
  ∧ visited_urls ∘ log <$> run Sample.rt_last Sample.shop 10 (Sample.crawler 2)
    = Some ["https://shop.test"; "https://shop.test/a"]
  ∧ bugs ∘ result <$> run Sample.rt_first Sample.shop 10 (Sample.crawler 2)
    ≠ bugs ∘ result <$> run Sample.rt_last Sample.shop 10 (Sample.crawler 2)
  ∧ errors ∘ result <$> run Sample.rt_first Sample.shop 10 (Sample.crawler 2)
    ≠ errors ∘ result <$> run Sample.rt_last Sample.shop 10 (Sample.crawler 2).
Proof.
  split_and!;
    [apply set_iter_ok_first | apply set_iter_ok_last
    | vm_compute; reflexivity.. | |]; vm_compute; discriminate.
Qed.

(** C7 as stated fails for a negative budget: nothing is visited, and 0
    exceeds [max_pages]. *)
Lemma budget_negative_max_pages :
  ∃ c', run Sample.rt_first Sample.shop 1 (Sample.crawler (-1)) = Some c'
        ∧ max_pages c' = -1
        ∧ pages_visited (result c') = 0%nat
        ∧ ¬ (Z.of_nat (pages_visited (result c')) ≤ max_pages c').
Proof.
  eexists. split; [vm_compute; reflexivity|]. simpl. split_and!; [done..|lia].
Qed.

(** ** Normalisation of the frontier entries *)

Lemma collect_links_normalized {DS} rt (c : VibeCrawler DS)
    (hs links out : list string) (u : string) :
  collect_links rt c hs links = Some out →
  u ∈ out → u ∈ links ∨ normalized u.
Proof.
  revert links. induction hs as [|href hs IH]; intros links; simpl.
  { intros [= <-]. by left. }
  destruct (PyStr.truthy _); [|apply IH].
  destruct (_same_origin rt c (clean_href href)) as [[|]|]; [|apply IH|done].
  destruct (bool_decide _); [|apply IH].
  intros E Hu. destruct (IH _ E Hu) as [Hin|?]; [|by right].
  apply elem_of_app in Hin as [?| ->%list_elem_of_singleton]; [by left|right].
  apply clean_href_normalized.
Qed.

(** Every URL a page visit appends to the queue is in normal form. *)
Lemma offered_links_normalized {DS} rt page url (c : VibeCrawler DS)
    (u : string) :
  set_iter_ok (set_iter rt) →
  u ∈ _queue (_crawl_page rt page url c) → u ∈ _queue c ∨ normalized u.
Proof.
  intros Hok. destruct (goto page url) as [cause|resp] eqn:Hg.
  - rewrite (crawl_page_failed _ _ _ _ _ Hg). by left.
  - rewrite (crawl_page_loaded _ _ _ _ _ Hg). cbv zeta.
    unfold _discover_links. destruct (hrefs page url) as [hs|]; [|by left].
    destruct (collect_links rt (inspected page url resp c) hs [])
      as [out|] eqn:E; simpl; [|by left].
    intros [?|[Hu _]]%offer_elem; [by left|right].
    destruct (Hok out) as [_ Hin]. apply Hin in Hu.
    destruct (collect_links_normalized _ _ _ _ _ _ E Hu) as [Hnil|?]; [|done].
    by apply elem_of_nil in Hnil.
Qed.

(** C3 at a seed with a fragment.  The seed ["https://blog.test/#top"] is
    queued and visited as it is, fragment included; the page's link
    ["https://blog.test/"] is cleaned to ["https://blog.test"], which is not
    in the visited set, so the same page is visited a second time: two
    frontier entries for URLs that differ only in fragment and trailing
    slash. *)
Theorem seed_fragment_kept :
  visited_urls ∘ log
    <$> run Sample.rt_first Sample.blog 10 Sample.blog_crawler
    = Some ["https://blog.test/#top"; "https://blog.test"]
  ∧ pages_visited ∘ result
      <$> run Sample.rt_first Sample.blog 10 Sample.blog_crawler
    = Some 2%nat
  ∧ _queue (started Sample.rt_first Sample.blog_crawler)
    = ["https://blog.test/#top"]
  ∧ clean_href "https://blog.test/#top" = clean_href "https://blog.test/"
  ∧ ¬ normalized "https://blog.test/#top".
Proof.
  split_and!; [vm_compute; reflexivity..|].
  intros [H _]. vm_compute in H. discriminate.
Qed.

(** ** The console-error buffer *)

(** [detect] leaves the buffer empty. *)
Lemma console_detect_clears (errs : list ErrEntry) (page : Page) (url : string) :
  (ConsoleErrorDetector.detect errs page url).2 = [].
Proof. done. Qed.

(** C8 at a page that fails to load.  The console error logged while [/a]
    was loading stays in the buffer, since no [detect] runs on [/a]; it is
    reported on the next page the detectors run on, under that page's URL:
    [/b] when the set of links iterates as [/a], [/b], and [/c] when it
    iterates as [/b], [/a]. *)
Theorem console_error_reported_on_later_page :
  page_events Sample.shop "https://shop.test/a"
    = [ConsoleMsg "error" "boom on /a"]
  ∧ page_events Sample.shop "https://shop.test/b" = []
  ∧ page_events Sample.shop "https://shop.test/c" = []
  ∧ det_state <$> detectors
      (_crawl_page Sample.rt_last Sample.shop "https://shop.test/a"
         (dequeue shop_after_home).2)
    = [[mkErr "console.error" "boom on /a"]; []; []]
  ∧ javascript_bugs <$> run Sample.rt_last Sample.shop 10 (Sample.crawler 20)
    = Some [mkBug "https://shop.test/b" "javascript" MEDIUM
                  "JS console.error" "boom on /a" None None []]
  ∧ javascript_bugs <$> run Sample.rt_first Sample.shop 10 (Sample.crawler 20)
    = Some [mkBug "https://shop.test/c" "javascript" MEDIUM
                  "JS console.error" "boom on /a" None None []].
Proof.
  split_and!; vm_compute; reflexivity.
Qed.

(** * Further properties of the crawler *)

Lemma truthy_nonempty (s : string) : PyStr.truthy s = true ↔ s ≠ "".
Proof. by destruct s. Qed.

Lemma elem_of_concat_lists {A} (x : A) (ls : list (list A)) :
  x ∈ concat ls ↔ ∃ l, x ∈ l ∧ l ∈ ls.
Proof.
  induction ls as [|l ls IH]; simpl.
  - split; [by intros []%elem_of_nil|]. by intros (? & _ & []%elem_of_nil).
  - rewrite elem_of_app, IH. split.
    + intros [?|(l' & ? & ?)]; [exists l; split; [done|left]|].
      exists l'. split; [done|by right].
    + intros (l' & ? & [->|?]%elem_of_cons); [by left|]. right. by exists l'.
Qed.

Section CrawlMore.
Context {DS : Type}.
Implicit Types (c : VibeCrawler DS) (rt : Runtime) (page : Page)
  (d : BugDetector DS).

Lemma run_inv_no_skip c c' : run_inv c → dequeue c ≠ (Skip, c').
Proof.
  intros [[_ Hdis] _ _ _] (u & Hq & Hin & _)%dequeue_skip.
  apply (Hdis u); [|done]. rewrite Hq. left.
Qed.

Lemma loop_turns_inv rt page n c : run_inv c → run_inv (loop_turns rt page n c).
Proof.
  revert c. induction n as [|n IH]; intros c Hinv; simpl; [done|].
  destruct (dequeue c) as [[| |url] c1] eqn:Hd.
  - by apply dequeue_stop in Hd as [-> _].
  - by apply run_inv_no_skip in Hd.
  - apply IH. by eapply run_inv_process.
Qed.

Lemma loop_turns_add rt page n k c :
  loop_turns rt page (n + k) c = loop_turns rt page k (loop_turns rt page n c).
Proof.
  revert c. induction n as [|n IH]; intros c; simpl; [done|].
  destruct (dequeue c) as [[| |url] c1] eqn:Hd; [|apply IH..].
  apply dequeue_stop in Hd as [-> Hc].
  destruct k as [|k]; simpl; [done|].
  unfold dequeue. by rewrite Hc.
Qed.

Lemma run_loop_turns rt page fuel c c' :
  run_loop rt page fuel c = Some c' → loop_turns rt page fuel c = c'.
Proof.
  revert c. induction fuel as [|fuel IH]; intros c; simpl; [done|].
  destruct (dequeue c) as [[| |url] c1]; [by intros [= ->]|apply IH..].
Qed.

Lemma process_discovery_order rt page c c1 url :
  dequeue c = (Process url, c1) →
  discovery_order c `prefix_of` discovery_order (_crawl_page rt page url c1).
Proof.
  intros (Hq & _ & _ & E)%dequeue_process.
  destruct (crawl_page_keeps rt page url c1)
    as (_ & _ & _ & (added & Eq & _) & (calls & El & Hcalls)).
  assert (log c1 = log c) as Elog by (by rewrite E).
  exists added. unfold discovery_order.
  rewrite El, Eq, Elog, visited_urls_app. simpl.
  rewrite (visited_urls_calls calls url Hcalls), Hq, <- !app_assoc. done.
Qed.

Lemma loop_turns_discovery_order rt page k c :
  run_inv c →
  discovery_order c `prefix_of` discovery_order (loop_turns rt page k c).
Proof.
  revert c. induction k as [|k IH]; intros c Hinv; simpl; [done|].
  destruct (dequeue c) as [[| |url] c1] eqn:Hd.
  - by apply dequeue_stop in Hd as [-> _].
  - by apply run_inv_no_skip in Hd.
  - etrans; [by apply (process_discovery_order rt page)|].
    apply IH. by eapply run_inv_process.
Qed.

(** X1. First in, first out.  In a run, the URLs visited so far followed by
    the URLs still queued form a list that only ever grows at its end: what
    it is after [n] turns of the loop is a prefix of what it is after any
    later turn, so pages are visited in the order their URLs were first
    queued. *)
Theorem visits_follow_queue_order rt page
    (dd : list (BugDetector DS)) (url : string) (max : Z)
    (dets : option (list (BugDetector DS))) (n k : nat) :
  let c0 := started rt (init dd url max dets) in
  discovery_order (loop_turns rt page n c0)
    `prefix_of` discovery_order (loop_turns rt page (n + k) c0)
  ∧ visited_urls (log (loop_turns rt page n c0))
    `prefix_of` discovery_order (loop_turns rt page (n + k) c0).
Proof.
  intros c0.
  assert (discovery_order (loop_turns rt page n c0)
    `prefix_of` discovery_order (loop_turns rt page (n + k) c0)) as H.
  { rewrite loop_turns_add. apply loop_turns_discovery_order, loop_turns_inv,
      started_inv. }
  split; [done|]. etrans; [|exact H]. by apply prefix_app_r.
Qed.

Lemma run_loop_enough_fuel rt page fuel c :
  run_inv c →
  (Z.to_nat (max_pages c - Z.of_nat (size (_visited c))) < fuel)%nat →
  is_Some (run_loop rt page fuel c).
Proof.
  revert c. induction fuel as [|fuel IH]; intros c Hinv Hlt; [lia|]. simpl.
  destruct (dequeue c) as [[| |url] c1] eqn:Hd.
  - done.
  - by apply run_inv_no_skip in Hd.
  - apply IH; [by eapply run_inv_process|].
    apply dequeue_process in Hd as (_ & Hfresh & Hb & ->).
    destruct (crawl_page_keeps rt page url
                (set_visited ({[url]} ∪ _visited c) (set_queue (_queue c1) c)))
      as (-> & -> & _).
    simpl. rewrite size_add_fresh by done. lia.
Qed.

(** X2. The loop of a run makes at most [max_pages + 1] turns (one turn when
    [max_pages] is negative): that much fuel always yields a result, whatever
    the site answers. *)
Theorem run_within_budget rt page
    (dd : list (BugDetector DS)) (url : string) (max : Z)
    (dets : option (list (BugDetector DS))) :
  ∃ c', run rt page (S (Z.to_nat max)) (init dd url max dets) = Some c'
        ∧ loop_cond c' = false.
Proof.
  rewrite run_unfold.
  destruct (run_loop_enough_fuel rt page (S (Z.to_nat max))
              (started rt (init dd url max dets))) as [c' Hrun].
  - apply started_inv.
  - change (Z.to_nat (max - Z.of_nat (size (∅ : gset string)))
            < S (Z.to_nat max))%nat.
    rewrite size_empty. lia.
  - exists (finalize rt c'). rewrite Hrun. split; [done|].
    by destruct (run_loop_inv _ _ _ _ _
                   (started_inv rt dd url max dets) Hrun) as [_ ?].
Qed.

Lemma same_origin_true rt c (u : string) :
  _same_origin rt c u = Some true ↔
  is_Some (netloc rt u) ∧ netloc rt u = netloc rt (start_url c).
Proof.
  unfold _same_origin.
  destruct (netloc rt u) as [a|], (netloc rt (start_url c)) as [b|];
    try case_bool_decide; split; try done.
  - by subst.
  - intros [_ [=]]. done.
  - by intros [_ [=]].
  - by intros [[? [=]] _].
  - by intros [[? [=]] _].
Qed.

Lemma same_origin_raises rt c (u : string) :
  _same_origin rt c u = None ↔
  netloc rt u = None ∨ netloc rt (start_url c) = None.
Proof.
  unfold _same_origin.
  destruct (netloc rt u), (netloc rt (start_url c)); split; try done;
    (by left) || (by right) || by intros [|].
Qed.

(** The loop raises exactly when a non-empty cleaned href cannot be
    compared with the start URL. *)
Lemma collect_links_raises rt c (hs links : list string) :
  collect_links rt c hs links = None ↔
  ∃ href, href ∈ hs ∧ clean_href href ≠ ""
          ∧ _same_origin rt c (clean_href href) = None.
Proof.
  revert links. induction hs as [|href hs IH]; intros links; simpl.
  { split; [done|]. by intros (? & []%elem_of_nil & _). }
  destruct (PyStr.truthy (clean_href href)) eqn:Ht.
  - apply truthy_nonempty in Ht.
    destruct (_same_origin rt c (clean_href href)) as [[|]|] eqn:Hso.
    + destruct (bool_decide _); rewrite IH; split.
      * intros (h & ? & ?). exists h. split; [by right|done].
      * intros (h & [->|?]%elem_of_cons & Hne & Hn); [congruence|by exists h].
      * intros (h & ? & ?). exists h. split; [by right|done].
      * intros (h & [->|?]%elem_of_cons & Hne & Hn); [congruence|by exists h].
    + rewrite IH. split.
      * intros (h & ? & ?). exists h. split; [by right|done].
      * intros (h & [->|?]%elem_of_cons & Hne & Hn); [congruence|by exists h].
    + split; [|done]. intros _. exists href. split; [left|done].
  - rewrite IH. split.
    + intros (h & ? & ?). exists h. split; [by right|done].
    + intros (h & [->|?]%elem_of_cons & Hne & Hn); [|by exists h].
      by destruct (clean_href href).
Qed.

Lemma collect_links_elem rt c (hs links out : list string) (u : string) :
  collect_links rt c hs links = Some out →
  u ∈ out ↔
  u ∈ links ∨ ∃ href, href ∈ hs ∧ u = clean_href href ∧ u ≠ ""
                      ∧ netloc rt u = netloc rt (start_url c)
                      ∧ (u ∉ _visited c).
Proof.
  revert links. induction hs as [|href hs IH]; intros links; simpl.
  { intros [= <-]. split; [by left|].
    intros [?|(? & []%elem_of_nil & _)]. done. }
  assert (∀ Q : string → Prop,
    (∃ h, h ∈ href :: hs ∧ Q h) ↔ Q href ∨ ∃ h, h ∈ hs ∧ Q h) as Hex.
  { intros Q. split.
    - intros (h & [->|?]%elem_of_cons & ?); [by left|right; by exists h].
    - intros [?|(h & ? & ?)]; [exists href; split; [left|done]|].
      exists h. split; [by right|done]. }
  rewrite (Hex (λ h, u = clean_href h ∧ u ≠ ""
                     ∧ netloc rt u = netloc rt (start_url c)
                     ∧ (u ∉ _visited c))).
  destruct (PyStr.truthy (clean_href href)) eqn:Ht.
  - destruct (_same_origin rt c (clean_href href)) as [[|]|] eqn:Hso; [| |done].
    + apply same_origin_true in Hso as [_ Hso].
      apply truthy_nonempty in Ht.
      case_bool_decide as Hv; intros E; rewrite (IH _ E).
      * rewrite elem_of_app, list_elem_of_singleton. split.
        -- intros [[?| ->]|?]; [by left|right; by left|right; by right].
        -- intros [?|[(-> & _)|?]]; [left; by left|left; by right|by right].
      * split; [intros [?|?]; [by left|right; by right]|].
        intros [?|[(-> & _ & _ & Hn)|?]]; [by left|done|by right].
    + intros E. rewrite (IH _ E).
      assert (netloc rt (clean_href href) ≠ netloc rt (start_url c)) as Hne.
      { intros Heq. unfold _same_origin in Hso. rewrite Heq in Hso.
        destruct (netloc rt (start_url c)); [|done].
        by rewrite bool_decide_eq_true_2 in Hso. }
      split; [intros [?|?]; [by left|right; by right]|].
      intros [?|[(-> & _ & Heq & _)|?]]; [by left|done|by right].
  - intros E. rewrite (IH _ E).
    split; [intros [?|?]; [by left|right; by right]|].
    intros [?|[(-> & Hne & _)|?]]; [by left| |by right].
    by destruct (clean_href href).
Qed.

(** X3. What a loaded page adds to the queue, exactly.  When the link query
    returns [hs] and [urlparse] accepts the start URL and every non-empty
    cleaned href, a URL is in the queue after the visit if and only if it was
    there before, or it is the cleaned form of one of the hrefs, is not
    empty, has the host of the start URL, and was not visited. *)
Theorem discovered_links_exact rt page url c
    (resp : option Response) (hs : list string) (u : string) :
  set_iter_ok (set_iter rt) →
  goto page url = GotoReturns resp →
  hrefs page url = Some hs →
  is_Some (netloc rt (start_url c)) →
  (∀ href, href ∈ hs → clean_href href ≠ "" →
           is_Some (netloc rt (clean_href href))) →
  u ∈ _queue (_crawl_page rt page url c) ↔
  u ∈ _queue c
  ∨ ∃ href, href ∈ hs ∧ u = clean_href href ∧ u ≠ ""
            ∧ netloc rt u = netloc rt (start_url c) ∧ (u ∉ _visited c).
Proof.
  intros Hok Hg Hh Hstart Hparse.
  rewrite (crawl_page_loaded _ _ _ _ _ Hg). cbv zeta.
  unfold _discover_links. rewrite Hh.
  destruct (collect_links rt (inspected page url resp c) hs [])
    as [out|] eqn:E.
  - simpl. destruct (Hok out) as [_ Hin].
    rewrite offer_elem, Hin, (collect_links_elem _ _ _ _ _ _ E). simpl.
    rewrite elem_of_nil. split.
    + intros [?|[[[]|?] ?]]; [by left|by right].
    + intros [?|(h & ? & ? & ? & ? & ?)]; [by left|].
      right. split; [|done]. right. by exists h.
  - exfalso. apply collect_links_raises in E as (h & Hin & Hne & Hso).
    apply same_origin_raises in Hso as [Hn|Hn].
    + destruct (Hparse h Hin Hne) as [? ?]. congruence.
    + destruct Hstart as [? ?]. simpl in Hn. congruence.
Qed.

(** X4. Whatever the outcome of a page visit, a URL that it adds to the queue
    is in normal form (no fragment, no trailing slash), is not empty, has the
    host of the start URL, and was not visited: links to other hosts are
    never queued. *)
Theorem offered_links_in_scope rt page url c (u : string) :
  set_iter_ok (set_iter rt) →
  u ∈ _queue (_crawl_page rt page url c) →
  u ∈ _queue c
  ∨ (normalized u ∧ u ≠ "" ∧ netloc rt u = netloc rt (start_url c)
     ∧ (u ∉ _visited c)).
Proof.
  intros Hok. destruct (goto page url) as [cause|resp] eqn:Hg.
  - rewrite (crawl_page_failed _ _ _ _ _ Hg). by left.
  - destruct (hrefs page url) as [hs|] eqn:Hh.
    + rewrite (crawl_page_loaded _ _ _ _ _ Hg). cbv zeta.
      unfold _discover_links. rewrite Hh.
      destruct (collect_links rt (inspected page url resp c) hs [])
        as [out|] eqn:E; simpl; [|by left].
      destruct (Hok out) as [_ Hin].
      rewrite offer_elem, Hin, (collect_links_elem _ _ _ _ _ _ E). simpl.
      intros [?|[[[]%elem_of_nil|(h & _ & -> & ? & ? & ?)] _]]; [by left|right].
      split; [apply clean_href_normalized|done].
    + rewrite (crawl_page_loaded _ _ _ _ _ Hg). cbv zeta.
      unfold _discover_links. rewrite Hh. by left.
Qed.

(** X19. When [urlparse] raises on the start URL or on one non-empty cleaned
    href of a loaded page, the exception ends link discovery for that page:
    none of the page's links is queued, and no error is recorded for it. *)
Theorem unparsable_href_drops_page_links rt page url c
    (resp : option Response) (hs : list string) (href : string) :
  goto page url = GotoReturns resp →
  hrefs page url = Some hs →
  href ∈ hs → clean_href href ≠ "" →
  netloc rt (clean_href href) = None ∨ netloc rt (start_url c) = None →
  let c' := _crawl_page rt page url c in
  _queue c' = _queue c
  ∧ errors (result c')
    = errors (result c) ++ concat (raised page url <$> listening page url c).
Proof.
  intros Hg Hh Hin Hne Hbad c'. subst c'.
  rewrite (crawl_page_loaded _ _ _ _ _ Hg). cbv zeta.
  unfold _discover_links. rewrite Hh.
  assert (collect_links rt (inspected page url resp c) hs [] = None) as ->.
  { apply collect_links_raises. exists href. split_and!; [done..|].
    by apply same_origin_raises. }
  done.
Qed.

(** X5. A failure of the link query is swallowed: the page's bugs and the
    detectors' errors are recorded as on any loaded page, the queue is left
    as it was and no error is recorded for the query. *)
Theorem link_query_failure_swallowed rt page url c (resp : option Response) :
  goto page url = GotoReturns resp →
  hrefs page url = None →
  let c' := _crawl_page rt page url c in
  _queue c' = _queue c
  ∧ errors (result c')
    = errors (result c) ++ concat (raised page url <$> listening page url c)
  ∧ bugs (result c')
    = bugs (result c) ++ status_bugs url resp
        ++ concat (returned page url <$> listening page url c).
Proof.
  intros Hg Hh c'. subst c'. rewrite (crawl_page_loaded _ _ _ _ _ Hg).
  cbv zeta. unfold _discover_links. by rewrite Hh.
Qed.

Lemma visited_urls_detect_calls (url : string) (ds : list (BugDetector DS)) :
  visited_urls (detect_call url <$> ds) = [].
Proof. by induction ds. Qed.

Lemma returned_attributed page url d (b : Bug) :
  attributes_to_url d → b ∈ returned page url d → bug_url b = url.
Proof.
  intros Hd. unfold returned.
  destruct (detect d (det_state d) page url) as [[e|found] s'] eqn:E; simpl.
  - by intros []%elem_of_nil.
  - by apply (Hd _ _ _ _ _ E).
Qed.

Lemma crawl_page_filed rt page url c : filed c → filed (_crawl_page rt page url c).
Proof.
  intros [Hd Hb].
  assert (∀ d, d ∈ listening page url c → attributes_to_url d) as Hl.
  { intros d (d0 & -> & Hin)%list_elem_of_fmap. by apply Hd in Hin. }
  destruct (goto page url) as [cause|resp] eqn:Hg.
  - rewrite (crawl_page_failed _ _ _ _ _ Hg). split; simpl; [done|].
    intros b Hin. rewrite visited_urls_app, elem_of_app. left. by apply Hb.
  - rewrite (crawl_page_loaded _ _ _ _ _ Hg). cbv zeta.
    assert (filed (inspected page url resp c)) as Hi.
    { split.
      - cbn [inspected detectors].
        intros d (d0 & -> & Hin)%list_elem_of_fmap. by apply Hl in Hin.
      - intros b. cbn [inspected result bugs log].
        rewrite !visited_urls_app, visited_urls_detect_calls.
        cbn [visited_urls]. rewrite !elem_of_app, list_elem_of_singleton.
        intros [?|[Hs|Hr]]; [left; by apply Hb|right; left..].
        + unfold status_bugs in Hs. destruct resp as [r|]; [|by inversion Hs].
          destruct (status_is_error (Some r)); [|by inversion Hs].
          by apply list_elem_of_singleton in Hs as ->.
        + apply elem_of_concat_lists in Hr as (found & Hin & Hf).
          apply list_elem_of_fmap in Hf as (d & -> & Hdl).
          eapply returned_attributed; [by apply Hl|done]. }
    by destruct (_discover_links rt page url (inspected page url resp c)).
Qed.

Lemma run_loop_filed rt page fuel c c' :
  filed c → run_loop rt page fuel c = Some c' → filed c'.
Proof.
  revert c. induction fuel as [|fuel IH]; intros c Hf; simpl; [done|].
  destruct (dequeue c) as [[| |url] c1] eqn:Hd.
  - intros [= <-]. by apply dequeue_stop in Hd as [-> _].
  - apply IH. by apply dequeue_skip in Hd as (? & _ & _ & ->).
  - apply IH, crawl_page_filed.
    by apply dequeue_process in Hd as (_ & _ & _ & ->).
Qed.

(** X6. When every configured detector files the bugs it returns under the
    URL it is given, every bug in the result of a run is filed under a URL
    that the run visited. *)
Theorem bugs_filed_under_visited_urls rt page
    (dd : list (BugDetector DS)) (url : string) (max : Z)
    (dets : option (list (BugDetector DS))) (fuel : nat) c' :
  (∀ d, d ∈ detector_classes (init dd url max dets) → attributes_to_url d) →
  run rt page fuel (init dd url max dets) = Some c' →
  ∀ b, b ∈ bugs (result c') → bug_url b ∈ _visited c'.
Proof.
  intros Hd. rewrite run_unfold.
  destruct (run_loop rt page fuel (started rt (init dd url max dets)))
    as [c1|] eqn:Hrun; [|done].
  intros [= <-] b Hb. simpl in Hb |- *.
  destruct (run_loop_inv _ _ _ _ _ (started_inv rt dd url max dets) Hrun)
    as [[_ _ Hv _] _].
  apply Hv.
  assert (filed (started rt (init dd url max dets))) as Hf0.
  { split; [done|]. intros b0 []%elem_of_nil. }
  by destruct (run_loop_filed _ _ _ _ _ Hf0 Hrun) as [_ Hb1]; apply Hb1.
Qed.

(** X7. When the seed page fails to load and the budget is at least one
    page, the run ends after that one visit with no bug and exactly one
    error, the load failure of the seed. *)
Theorem seed_load_failure rt page
    (dd : list (BugDetector DS)) (url : string) (max : Z)
    (dets : option (list (BugDetector DS))) (cause : string) :
  goto page (PyStr.rstrip_slash url) = GotoRaises cause →
  1 ≤ max →
  ∃ c', run rt page 2 (init dd url max dets) = Some c'
        ∧ bugs (result c') = []
        ∧ errors (result c')
          = ["Failed to load " +:+ PyStr.rstrip_slash url +:+ ": " +:+ cause]
        ∧ pages_visited (result c') = 1%nat
        ∧ visited_urls (log c') = [PyStr.rstrip_slash url].
Proof.
  intros Hg Hmax.
  set (c0 := started rt (init dd url max dets)).
  set (seed := PyStr.rstrip_slash url) in *.
  set (c1 := set_visited ({[seed]} ∪ ∅) (set_queue [] c0)).
  assert (dequeue c0 = (Process seed, c1)) as Hd0.
  { unfold dequeue, loop_cond. simpl.
    rewrite bool_decide_eq_true_2
      by (change (Z.of_nat (size (∅ : gset string)) < max);
          rewrite size_empty; lia).
    rewrite bool_decide_eq_false_2 by set_solver. done. }
  set (c2 := _crawl_page rt page seed c1).
  assert (dequeue c2 = (Stop, c2)) as Hd2.
  { unfold c2. rewrite (crawl_page_failed _ _ _ _ _ Hg).
    unfold dequeue, loop_cond. done. }
  exists (finalize rt c2). rewrite run_unfold. fold c0.
  cbn [run_loop]. rewrite Hd0. fold c2. rewrite Hd2.
  unfold c2. rewrite (crawl_page_failed _ _ _ _ _ Hg).
  cbn [fmap option_fmap option_map finalize set_result result _visited log
       pages_visited bugs errors append_error].
  split_and!; [done..| |done].
  change (_visited c1) with ({[seed]} ∪ (∅ : gset string)).
  rewrite size_add_fresh by set_solver. by rewrite size_empty.
Qed.

End CrawlMore.

(** * The console-error detector *)

Lemma console_buffer (errs : list ErrEntry) (evs : list PageEvent) (url : string) :
  ConsoleErrorDetector.bug_of url
    <$> foldl ConsoleErrorDetector.listener errs evs
  = (ConsoleErrorDetector.bug_of url <$> errs) ++ omap (console_bug url) evs.
Proof.
  revert errs. induction evs as [|ev evs IH]; intros errs; simpl.
  - by rewrite app_nil_r.
  - rewrite IH. destruct ev as [type text|text]; simpl.
    + unfold ConsoleErrorDetector._on_console. case_bool_decide; [|done].
      rewrite fmap_app, <- app_assoc. done.
    + unfold ConsoleErrorDetector._on_pageerror.
      rewrite fmap_app, <- app_assoc. done.
Qed.

(** X8. What the console-error detector reports on a loaded page: first one
    bug for each entry left in its buffer from earlier navigations on which
    [detect] did not run, then one bug for each event of this navigation that
    is a page error (high) or a console message of type ["error"] (medium),
    in the order of arrival; console messages of any other type are dropped.
    All are filed under the URL of the page, and the buffer is empty
    afterwards. *)
Theorem console_reports_buffer_then_events
    (errs : list ErrEntry) (page : Page) (url : string) :
  let d := deliver (page_events page url)
             (with_state ConsoleErrorDetector.new errs) in
  returned page url d
    = (ConsoleErrorDetector.bug_of url <$> errs)
        ++ omap (console_bug url) (page_events page url)
  ∧ raised page url d = []
  ∧ det_state (after_detect page url d) = [].
Proof.
  intros d. split_and!; [|done..].
  unfold returned, d. simpl. apply console_buffer.
Qed.

Lemma prefix_len_le (n : nat) (s : string) :
  (PyStr.len (PyStr.prefix n s) ≤ n)%nat.
Proof.
  revert n. induction s as [|a s IH]; intros n; simpl; [lia|].
  destruct (PyStr.is_continuation a) eqn:Ea; simpl.
  - rewrite Ea. apply IH.
  - destruct n as [|n]; simpl; [lia|]. rewrite Ea. specialize (IH n). lia.
Qed.

(** X9. Every bug the console-error detector returns has a description of at
    most 500 characters (code points, however many bytes each takes),
    however long the logged text was. *)
Theorem console_description_bounded
    (errs : list ErrEntry) (page : Page) (url : string) (b : Bug) :
  b ∈ returned page url (with_state ConsoleErrorDetector.new errs) →
  (PyStr.len (bug_description b) ≤ 500)%nat.
Proof.
  unfold returned. simpl.
  intros (err & -> & _)%list_elem_of_fmap. simpl.
  apply prefix_len_le.
Qed.

(** * The reports *)

Lemma count_entry_default (n : nat) : default 0%nat (count_entry n) = n.
Proof. by destruct n. Qed.

Lemma bump_lookup (k k' : string) (d : gmap string nat) (n : nat) :
  d !! k = count_entry n →
  bump k' d !! k = count_entry (if bool_decide (k' = k) then S n else n).
Proof.
  intros H. unfold bump. case_bool_decide as E.
  - subst k'. rewrite lookup_insert_eq, H, count_entry_default. simpl.
    f_equal. lia.
  - by rewrite lookup_insert_ne.
Qed.

Lemma report_add_counts (k1 k2 : string) (bs : list Bug) (data : Report)
    (n1 n2 : nat) :
  by_severity (summary data) !! k1 = count_entry n1 →
  by_category (summary data) !! k2 = count_entry n2 →
  by_severity (summary (foldl report_add data bs)) !! k1
    = count_entry (n1 + length (with_severity k1 bs))
  ∧ by_category (summary (foldl report_add data bs)) !! k2
    = count_entry (n2 + length (with_category k2 bs)).
Proof.
  revert data n1 n2. induction bs as [|b bs IH]; intros data n1 n2 H1 H2.
  - simpl. by rewrite !Nat.add_0_r.
  - simpl. unfold with_severity, with_category in *.
    destruct (IH (report_add data b)
                (if bool_decide (severity_value (bug_severity b) = k1)
                 then S n1 else n1)
                (if bool_decide (bug_category b = k2) then S n2 else n2))
      as [-> ->]; [by apply bump_lookup..|].
    split; f_equal.
    + case_bool_decide.
      * rewrite filter_cons_True by done. simpl. lia.
      * by rewrite filter_cons_False.
    + case_bool_decide.
      * rewrite filter_cons_True by done. simpl. lia.
      * by rewrite filter_cons_False.
Qed.

(** X10. In the JSON report, the count under a severity value (or under a
    category) is the number of bugs that have it, and a severity value or
    category that no bug has is not a key of the dict at all (it is missing,
    not 0). *)
Theorem report_counts_per_key (r : CrawlResult) (k : string) :
  by_severity (summary (generate_json_report r)) !! k
    = count_entry (length (with_severity k (bugs r)))
  ∧ by_category (summary (generate_json_report r)) !! k
    = count_entry (length (with_category k (bugs r))).
Proof.
  unfold generate_json_report.
  apply (report_add_counts k k (bugs r) _ 0 0); apply lookup_empty.
Qed.

Lemma group_add_lookup (k : string) (d : gmap string (list Bug)) (b : Bug) :
  default [] (Reporter.group_add d b !! k)
  = default [] (d !! k) ++ with_severity k [b].
Proof.
  unfold Reporter.group_add, with_severity.
  destruct (decide (severity_value (bug_severity b) = k)) as [<-|Hne].
  - rewrite lookup_insert_eq, filter_cons_True by done. done.
  - rewrite lookup_insert_ne, filter_cons_False by done.
    by rewrite app_nil_r.
Qed.

Lemma group_fold_lookup (k : string) (found : list Bug)
    (d : gmap string (list Bug)) :
  default [] (foldl Reporter.group_add d found !! k)
  = default [] (d !! k) ++ with_severity k found.
Proof.
  revert d. induction found as [|b found IH]; intros d; simpl.
  - by rewrite app_nil_r.
  - rewrite IH, group_add_lookup, <- app_assoc. f_equal.
    unfold with_severity. by rewrite <- filter_app.
Qed.

Lemma groups_cons_absent (ks : list string) (b : Bug) (found : list Bug) :
  severity_value (bug_severity b) ∉ ks →
  concat ((λ sev, with_severity sev (b :: found)) <$> ks)
  = concat ((λ sev, with_severity sev found) <$> ks).
Proof.
  induction ks as [|k ks IH]; intros Hn; csimpl; [done|].
  apply not_elem_of_cons in Hn as [Hne Hn]. rewrite IH by done.
  unfold with_severity at 1. by rewrite filter_cons_False.
Qed.

Lemma groups_cons_present (ks : list string) (b : Bug) (found : list Bug) :
  NoDup ks → severity_value (bug_severity b) ∈ ks →
  concat ((λ sev, with_severity sev (b :: found)) <$> ks)
  ≡ₚ b :: concat ((λ sev, with_severity sev found) <$> ks).
Proof.
  induction ks as [|k ks IH]; intros Hnd Hin; [by apply elem_of_nil in Hin|].
  apply NoDup_cons in Hnd as [Hk Hnd]. csimpl.
  destruct (decide (severity_value (bug_severity b) = k)) as [E|Hne].
  - rewrite groups_cons_absent by (by rewrite E).
    unfold with_severity at 1. by rewrite filter_cons_True.
  - apply elem_of_cons in Hin as [?|Hin]; [done|].
    rewrite IH by done. unfold with_severity at 1.
    rewrite filter_cons_False by done. by rewrite Permutation_middle.
Qed.

Lemma severity_partition (found : list Bug) :
  concat ((λ sev, with_severity sev found) <$> Reporter.SEVERITIES) ≡ₚ found.
Proof.
  induction found as [|b found IH]; [done|].
  rewrite groups_cons_present, IH; [done| |].
  - unfold Reporter.SEVERITIES. repeat (apply NoDup_cons; split;
      [rewrite ?elem_of_cons, elem_of_nil; intros H;
       repeat (destruct H as [H|H]; [discriminate|]); done|]).
    constructor.
  - unfold Reporter.SEVERITIES. rewrite !elem_of_cons.
    destruct (bug_severity b); simpl; tauto.
Qed.

(** X11. The terminal report lists the bugs by severity: the group printed
    under a severity value holds exactly the bugs of that severity, in the
    order they were found; the five groups together hold every bug of the
    result once; and a severity that no bug has prints nothing, not even its
    heading. *)
Theorem print_report_groups (r : CrawlResult) (sev : string) :
  default [] (Reporter.group_by_severity (bugs r) !! sev)
    = with_severity sev (bugs r)
  ∧ concat ((λ s, default [] (Reporter.group_by_severity (bugs r) !! s))
              <$> Reporter.SEVERITIES) ≡ₚ bugs r
  ∧ (Reporter.section_lines (Reporter.group_by_severity (bugs r)) sev = []
     ↔ with_severity sev (bugs r) = []).
Proof.
  assert (∀ s, default [] (Reporter.group_by_severity (bugs r) !! s)
               = with_severity s (bugs r)) as Hg.
  { intros s. unfold Reporter.group_by_severity.
    by rewrite group_fold_lookup, lookup_empty. }
  split_and!.
  - apply Hg.
  - etrans; [|apply severity_partition].
    assert ((λ s, default [] (Reporter.group_by_severity (bugs r) !! s))
              <$> Reporter.SEVERITIES
            = (λ s, with_severity s (bugs r)) <$> Reporter.SEVERITIES) as ->;
      [|done].
    apply list_fmap_ext. intros _ s _. apply Hg.
  - unfold Reporter.section_lines. rewrite Hg.
    by destruct (with_severity sev (bugs r)).
Qed.

Lemma contains_append (ch : Ascii.ascii) (s1 s2 : string) :
  PyStr.contains ch (s1 +:+ s2) = PyStr.contains ch s1 || PyStr.contains ch s2.
Proof.
  induction s1 as [|a s1 IH]; simpl; [done|]. by rewrite IH, orb_assoc.
Qed.

Lemma replace_char_removes (c : Ascii.ascii) (by_ s : string) :
  PyStr.contains c by_ = false →
  PyStr.contains c (Text.replace_char c by_ s) = false.
Proof.
  intros Hby. induction s as [|a s IH]; simpl; [done|].
  destruct (Ascii.eqb a c) eqn:E.
  - by rewrite contains_append, Hby, IH.
  - simpl. by rewrite E, IH.
Qed.

Lemma replace_char_keeps_out (c c' : Ascii.ascii) (by_ s : string) :
  PyStr.contains c' by_ = false → PyStr.contains c' s = false →
  PyStr.contains c' (Text.replace_char c by_ s) = false.
Proof.
  intros Hby. induction s as [|a s IH]; simpl; [done|].
  intros [Ha Hs]%orb_false_iff. destruct (Ascii.eqb a c).
  - by rewrite contains_append, Hby, IH.
  - simpl. by rewrite Ha, IH.
Qed.

(** X12. The description cell of a row of the HTML report never holds a
    ["<"] or a [">"], whatever the bug's description is. *)
Theorem escaped_description_has_no_angle_bracket (desc : string) :
  PyStr.contains "<" (Reporter.escape_description desc) = false
  ∧ PyStr.contains ">" (Reporter.escape_description desc) = false.
Proof.
  unfold Reporter.escape_description. split.
  - apply replace_char_keeps_out; [done|]. by apply replace_char_removes.
  - by apply replace_char_removes.
Qed.

(** * The built-in detectors *)

(** X13. The meta/SEO detector reports nothing exactly on the pages that have
    a title, a viewport, a meta description and a favicon, and whose count of
    [<h1>] headings is one (or negative, which no page gives). *)
Theorem seo_findings_empty_iff_clean
    (info : MetaAndSEODetector.Info) (url : string) :
  MetaAndSEODetector.findings info url = [] ↔ seo_clean info.
Proof.
  unfold seo_clean, MetaAndSEODetector.findings.
  rewrite <- !truthy_nonempty.
  destruct info as [t m v h f]; simpl.
  destruct (PyStr.truthy t), (PyStr.truthy v), (PyStr.truthy m), f; simpl;
    repeat case_bool_decide; simpl;
    (split; [intros Hnil; try discriminate Hnil; split_and!; (done || lia)
            |intros (? & ? & ? & ? & ?); (done || (exfalso; lia))]).
Qed.

(** X14. On a page whose only defect is an empty title, the meta/SEO detector
    returns exactly one bug, the medium-severity ["Missing page <title>"]. *)
Theorem seo_missing_title_only
    (info : MetaAndSEODetector.Info) (url : string) :
  MetaAndSEODetector.title info = "" →
  MetaAndSEODetector.viewport info ≠ "" →
  MetaAndSEODetector.metaDescription info ≠ "" →
  MetaAndSEODetector.favicon info = true →
  MetaAndSEODetector.h1Count info = 1 →
  MetaAndSEODetector.detect (inr info) url
  = DetectReturns [mkBug url "seo" MEDIUM "Missing page <title>"
                         "The page has no <title> tag." None None []].
Proof.
  intros Ht Hv%truthy_nonempty Hm%truthy_nonempty Hf Hh.
  unfold MetaAndSEODetector.detect, MetaAndSEODetector.findings.
  rewrite Ht, Hv, Hm, Hf, Hh. done.
Qed.

Section BrokenLinks.
Import BrokenLinkDetector.
Implicit Types (head : string → option Z) (links : list Link).

(** What one probed link contributes. *)
Lemma probe_spec head (url : string) links (found : list Bug) :
  probe head url links found
  = found ++ omap (λ l, st ← head (href l);
                        if bool_decide (400 ≤ st)
                        then Some (broken_bug url l st) else None)
                  (filter (λ l, skipped (href l) = false) links).
Proof.
  revert found. induction links as [|l links IH]; intros found; simpl.
  - by rewrite app_nil_r.
  - destruct (skipped (href l)) eqn:Hs.
    + rewrite filter_cons_False by (by rewrite Hs). apply IH.
    + rewrite filter_cons_True by done. simpl.
      destruct (head (href l)) as [st|]; simpl; [|apply IH].
      case_bool_decide; rewrite IH; [|done]. by rewrite <- app_assoc.
Qed.

(** X15. The broken-link detector reports a bug exactly for the links that
    are among the first 50 of the page, have a non-empty href that does not
    start with [javascript:], [mailto:], [tel:] or [data:], and whose HEAD
    request answers a status of 400 or more; a request that raises reports
    nothing.  The severity is high from status 500 on, medium below. *)
Theorem broken_links_exact head links (url : string) (b : Bug) :
  b ∈ findings head links url ↔
  ∃ l st, l ∈ probed links ∧ head (href l) = Some st ∧ 400 ≤ st
          ∧ b = mkBug url "broken_link"
                  (if bool_decide (500 ≤ st) then HIGH else MEDIUM)
                  ("Broken link (" +:+ pretty st +:+ ")")
                  ("Link " +:+ Text.dquote +:+ text l +:+ Text.dquote
                     +:+ " → " +:+ href l +:+ " returned " +:+ pretty st)
                  None None [("status", pretty st); ("target", href l)].
Proof.
  unfold findings, probed. rewrite probe_spec, app_nil_l.
  rewrite list_elem_of_omap. split.
  - intros (l & Hl & Hb). exists l.
    destruct (head (href l)) as [st|]; simpl in Hb; [|done].
    case_bool_decide; [|done]. injection Hb as <-. by exists st.
  - intros (l & st & Hl & Hh & Hst & ->). exists l. split; [done|].
    rewrite Hh. simpl. by rewrite bool_decide_eq_true_2.
Qed.

Lemma omap_length_le {A B} (f : A → option B) (l : list A) :
  (length (omap f l) ≤ length l)%nat.
Proof.
  induction l as [|x l IH]; csimpl; [done|]. destruct (f x); csimpl; lia.
Qed.

Lemma omap_ext_in {A B} (f g : A → option B) (l : list A) :
  (∀ x, x ∈ l → f x = g x) → omap f l = omap g l.
Proof.
  induction l as [|x l IH]; intros H; csimpl; [done|].
  rewrite (H x) by left. rewrite IH; [done|]. intros y Hy. apply H. by right.
Qed.

(** X16. The broken-link detector returns at most 50 bugs for a page, in the
    order of the links; the links after the fiftieth play no part, and
    neither does the answer of a HEAD request to a link it does not probe. *)
Theorem broken_links_bounded head head' links (url : string) :
  (∀ l, l ∈ probed links → head (href l) = head' (href l)) →
  (length (findings head links url) ≤ 50)%nat
  ∧ findings head links url
    = findings head (take MAX_LINKS_PER_PAGE links) url
  ∧ findings head links url = findings head' links url.
Proof.
  intros Hsame. unfold findings. rewrite !probe_spec, !app_nil_l. split_and!.
  - etrans; [apply omap_length_le|]. etrans; [apply length_filter|].
    rewrite length_take. unfold MAX_LINKS_PER_PAGE. lia.
  - by rewrite take_take, Nat.min_id.
  - apply omap_ext_in. intros l Hl. by rewrite (Hsame l).
Qed.

End BrokenLinks.

(** X17. The accessibility detector returns one bug per issue, in order.  An
    issue of a type it does not know is not dropped: it is reported with low
    severity under the raw type as title.  Of the known types, [no_lang] is
    low and the three others are medium. *)
Theorem accessibility_unknown_type_kept
    (issues : list AccessibilityDetector.Issue) (url ty det : string) :
  ty ∉ ["img_no_alt"; "empty_interactive"; "no_lang"; "input_no_label"] →
  AccessibilityDetector.findings
    (issues ++ [AccessibilityDetector.mkIssue ty det]) url
  = AccessibilityDetector.findings issues url
      ++ [mkBug url "accessibility" LOW ty det None None []]
  ∧ length (AccessibilityDetector.findings issues url) = length issues
  ∧ bug_severity <$> AccessibilityDetector.findings
      [AccessibilityDetector.mkIssue "img_no_alt" det;
       AccessibilityDetector.mkIssue "empty_interactive" det;
       AccessibilityDetector.mkIssue "no_lang" det;
       AccessibilityDetector.mkIssue "input_no_label" det] url
    = [MEDIUM; MEDIUM; LOW; MEDIUM].
Proof.
  intros Hty. rewrite !not_elem_of_cons in Hty.
  destruct Hty as (H1 & H2 & H3 & H4 & _).
  unfold AccessibilityDetector.findings. split_and!.
  - rewrite fmap_app. f_equal. simpl.
    unfold AccessibilityDetector.issue_bug,
      AccessibilityDetector.title_map, AccessibilityDetector.severity_map.
    simpl. rewrite !lookup_insert_ne, !lookup_empty by done. done.
  - apply length_fmap.
  - vm_compute. reflexivity.
Qed.

Lemma probe_attributed (head : string → option Z) (url : string)
    (links : list BrokenLinkDetector.Link) :
  Forall (λ b, bug_url b = url ∧ bug_category b = "broken_link")
         (BrokenLinkDetector.probe head url links []).
Proof.
  rewrite probe_spec, app_nil_l. apply Forall_forall.
  intros b (l & _ & Hb)%list_elem_of_omap.
  destruct (head (BrokenLinkDetector.href l)) as [st|]; simpl in Hb; [|done].
  case_bool_decide; [|done]. by injection Hb as <-.
Qed.

(** X18. Each of these built-in detectors files every bug it returns under
    the URL it was given and under its own category: [seo], [broken_link],
    [layout], [ux], [accessibility]. *)
Theorem builtin_findings_attributed (url : string)
    (info : MetaAndSEODetector.Info)
    (head : string → option Z) (links : list BrokenLinkDetector.Link)
    (overflows : list OverflowDetector.Item)
    (suspects : list DeadClickDetector.Suspect)
    (issues : list AccessibilityDetector.Issue) :
  Forall (λ b, bug_url b = url ∧ bug_category b = "seo")
         (MetaAndSEODetector.findings info url)
  ∧ Forall (λ b, bug_url b = url ∧ bug_category b = "broken_link")
           (BrokenLinkDetector.findings head links url)
  ∧ Forall (λ b, bug_url b = url ∧ bug_category b = "layout")
           (OverflowDetector.findings overflows url)
  ∧ Forall (λ b, bug_url b = url ∧ bug_category b = "ux")
           (DeadClickDetector.findings suspects url)
  ∧ Forall (λ b, bug_url b = url ∧ bug_category b = "accessibility")
           (AccessibilityDetector.findings issues url).
Proof.
  split_and!.
  - unfold MetaAndSEODetector.findings.
    repeat match goal with
           | |- context [if ?b then _ else _] => destruct b
           end; simpl; repeat constructor.
  - apply probe_attributed.
  - apply Forall_fmap, Forall_forall. by intros.
  - apply Forall_fmap, Forall_forall. by intros.
  - apply Forall_fmap, Forall_forall. by intros.
Qed.

(** * The further properties at the sample inputs *)

Lemma discovered_links_exact_shop :
  "https://shop.test/b" ∈ _queue shop_after_home ↔
  "https://shop.test/b"
    ∈ _queue (dequeue (started Sample.rt_last (Sample.crawler 20))).2
  ∨ ∃ href,
      href ∈ ["https://shop.test/a"; "https://shop.test/b/";
              "https://shop.test/a#reviews"; "https://cdn.test/x"]
      ∧ "https://shop.test/b" = clean_href href
      ∧ "https://shop.test/b" ≠ ""
      ∧ Some (PyStr.urlparse_netloc "https://shop.test/b")
        = Some (PyStr.urlparse_netloc "https://shop.test/")
      ∧ ("https://shop.test/b" ∉ ({["https://shop.test"]} ∪ ∅ : gset string)).
Proof.
  exact (discovered_links_exact Sample.rt_last Sample.shop "https://shop.test"
           (dequeue (started Sample.rt_last (Sample.crawler 20))).2
           (Some (mkResponse 200)) _ "https://shop.test/b"
           set_iter_ok_last eq_refl eq_refl
           (ex_intro _ _ eq_refl) (λ _ _ _, ex_intro _ _ eq_refl)).
Defined.

Lemma offered_links_in_scope_shop :
  "https://shop.test/a"
    ∈ _queue (dequeue (started Sample.rt_last (Sample.crawler 20))).2
  ∨ (normalized "https://shop.test/a" ∧ "https://shop.test/a" ≠ ""
     ∧ Some (PyStr.urlparse_netloc "https://shop.test/a")
       = Some (PyStr.urlparse_netloc "https://shop.test/")
     ∧ ("https://shop.test/a" ∉ ({["https://shop.test"]} ∪ ∅ : gset string))).
Proof.
  apply (offered_links_in_scope Sample.rt_last Sample.shop "https://shop.test"
           (dequeue (started Sample.rt_last (Sample.crawler 20))).2
           "https://shop.test/a" set_iter_ok_last).
  vm_compute. left.
Defined.

Lemma unparsable_href_drops_page_links_gallery :
  let c := (dequeue (started Cases.rt_checked (Sample.crawler 20))).2 in
  let c' := _crawl_page Cases.rt_checked Cases.gallery "https://shop.test" c in
  _queue c' = []
  ∧ errors (result c')
    = ["Detector flaky failed on https://shop.test: probe failed"].
Proof.
  intros c.
  refine (unparsable_href_drops_page_links Cases.rt_checked Cases.gallery
            "https://shop.test" c (Some (mkResponse 200)) _ "http://[bad/x"
            eq_refl eq_refl _ _ (or_introl eq_refl)).
  - right. left.
  - discriminate.
Defined.

Lemma link_query_failure_swallowed_shop :
  let c := (dequeue (started Sample.rt_first (Sample.crawler 20))).2 in
  let c' := _crawl_page Sample.rt_first Sample.shop "https://shop.test/c" c in
  _queue c' = []
  ∧ errors (result c')
    = ["Detector flaky failed on https://shop.test/c: probe failed"]
  ∧ bugs (result c') = [Sample.no_title "https://shop.test/c"].
Proof.
  intros c.
  exact (link_query_failure_swallowed Sample.rt_first Sample.shop
           "https://shop.test/c" c None eq_refl eq_refl).
Defined.

Lemma sample_detectors_attribute (d : BugDetector (list ErrEntry)) :
  d ∈ detector_classes (Sample.crawler 20) → attributes_to_url d.
Proof.
  intros Hd. apply list_elem_of_In in Hd. simpl in Hd.
  destruct Hd as [<-|[<-|[<-|[]]]]; intros s page url found s' E b Hb;
    simpl in E.
  - injection E as <- _.
    by apply list_elem_of_fmap in Hb as (err & -> & _).
  - discriminate E.
  - injection E as <- _. by apply list_elem_of_singleton in Hb as ->.
Defined.

Lemma bugs_filed_under_visited_urls_shop :
  ∃ c', run Sample.rt_last Sample.shop 10 (Sample.crawler 20) = Some c'
        ∧ "https://shop.test/b" ∈ _visited c'.
Proof.
  eexists. split; [vm_compute; reflexivity|].
  refine (bugs_filed_under_visited_urls Sample.rt_last Sample.shop
            [ConsoleErrorDetector.new] "https://shop.test/" 20
            (Some [ConsoleErrorDetector.new; Sample.flaky; Sample.title_check])
            10 _ sample_detectors_attribute _
            (mkBug "https://shop.test/b" "http" HIGH "HTTP 404"
                   "Page returned status 404" None None []) _).
  - vm_compute. reflexivity.
  - vm_compute. right. left.
Defined.

Lemma seed_load_failure_down :
  ∃ c', run Sample.rt_first Cases.down 2 Cases.down_crawler = Some c'
        ∧ bugs (result c') = []
        ∧ errors (result c')
          = ["Failed to load https://down.test: net::ERR_NAME_NOT_RESOLVED"]
        ∧ pages_visited (result c') = 1%nat
        ∧ visited_urls (log c') = ["https://down.test"].
Proof.
  exact (seed_load_failure Sample.rt_first Cases.down
           [ConsoleErrorDetector.new] "https://down.test/" 5 None
           "net::ERR_NAME_NOT_RESOLVED" eq_refl ltac:(lia)).
Defined.

Lemma console_description_bounded_long :
  (PyStr.len
     (bug_description
        (ConsoleErrorDetector.bug_of "https://shop.test" Cases.long_error))
   ≤ 500)%nat.
Proof.
  apply (console_description_bounded [Cases.long_error] Sample.shop
           "https://shop.test").
  left.
Defined.

Lemma seo_missing_title_only_untitled :
  MetaAndSEODetector.detect (inr Cases.untitled) "https://shop.test"
  = DetectReturns [mkBug "https://shop.test" "seo" MEDIUM
                         "Missing page <title>"
                         "The page has no <title> tag." None None []].
Proof.
  apply (seo_missing_title_only Cases.untitled "https://shop.test");
    (reflexivity || discriminate).
Defined.

Lemma broken_links_bounded_nav :
  (length (BrokenLinkDetector.findings Cases.head_a Cases.nav
             "https://shop.test") ≤ 50)%nat
  ∧ BrokenLinkDetector.findings Cases.head_a Cases.nav "https://shop.test"
    = BrokenLinkDetector.findings Cases.head_a
        (take BrokenLinkDetector.MAX_LINKS_PER_PAGE Cases.nav)
        "https://shop.test"
  ∧ BrokenLinkDetector.findings Cases.head_a Cases.nav "https://shop.test"
    = BrokenLinkDetector.findings Cases.head_b Cases.nav "https://shop.test".
Proof.
  apply (broken_links_bounded Cases.head_a Cases.head_b Cases.nav
           "https://shop.test").
  intros l Hl. apply list_elem_of_In in Hl. vm_compute in Hl.
  destruct Hl as [<-|[<-|[]]]; reflexivity.
Defined.

Lemma accessibility_unknown_type_kept_weird :
  AccessibilityDetector.findings
    ([AccessibilityDetector.mkIssue "no_lang" "<html> missing lang attribute"]
       ++ [AccessibilityDetector.mkIssue "contrast" "low contrast"])
    "https://shop.test"
  = AccessibilityDetector.findings
      [AccessibilityDetector.mkIssue "no_lang" "<html> missing lang attribute"]
      "https://shop.test"
      ++ [mkBug "https://shop.test" "accessibility" LOW "contrast"
                "low contrast" None None []]
  ∧ length (AccessibilityDetector.findings
              [AccessibilityDetector.mkIssue "no_lang"
                 "<html> missing lang attribute"] "https://shop.test")
    = 1%nat
  ∧ bug_severity <$> AccessibilityDetector.findings
      [AccessibilityDetector.mkIssue "img_no_alt" "low contrast";
       AccessibilityDetector.mkIssue "empty_interactive" "low contrast";
       AccessibilityDetector.mkIssue "no_lang" "low contrast";
       AccessibilityDetector.mkIssue "input_no_label" "low contrast"]
      "https://shop.test"
    = [MEDIUM; MEDIUM; LOW; MEDIUM].
Proof.
  apply (accessibility_unknown_type_kept
           [AccessibilityDetector.mkIssue "no_lang"
              "<html> missing lang attribute"]
           "https://shop.test" "contrast" "low contrast").
  rewrite !not_elem_of_cons. split_and!; (discriminate || apply not_elem_of_nil).
Defined.
